(** * Okada displacement field and line-of-sight projection

    A shallow embedding of the notebook
    [EarthScope2023/3.1_Preparing_InSAR_data_for_modeling/okada_los_components.ipynb]
    and the properties of its three stages: geometry normalisation
    (cells 8-14), grid evaluation (cell 16) and line-of-sight projection
    (cells 18-21).

    Numbers.  Python floats are modelled by the real numbers of the
    Standard Library, and [math.sin], [math.cos] by the real sine and
    cosine: every statement below is about the exact-arithmetic reading of
    the notebook, rounding is not modelled.  Two places where the float
    behaviour is not the one of a real formula are written out:
    a float division raises [ZeroDivisionError] on a zero divisor, and
    [math.tan] is total (see [math.tan]). *)

From Stdlib Require Import Reals Lra Lia ZArith.
From stdpp Require Import base option list list_numbers.

Local Open Scope R_scope.

(** ** Python and NumPy primitives used by the notebook *)

(** The exceptions a cell of the notebook can raise. *)
Inductive exn : Type :=
  | ZeroDivisionError
  | AssertionError
  | IndexError.

(** A computation that returns or raises. *)
Definition result (A : Type) : Type := (exn + A)%type.

Definition rbind {A B : Type} (m : result A) (k : A -> result B) : result B :=
  match m with
  | inl e => inl e
  | inr a => k a
  end.

(** Python's [a / b] on floats. *)
Definition truediv (a b : R) : result R :=
  if Req_dec_T b 0 then inl ZeroDivisionError else inr (a / b).

Module math.

(** [math.radians(x)] is [x * (pi / 180)]. *)
Definition radians (x : R) : R := x * (PI / 180).

(** The value CPython returns for [tan(radians(90))]. *)
Definition tan_at_pole : R := 16331239353195370.

(** [math.tan] never raises on a finite argument.  Away from the poles it
    is the real tangent.  At a pole (where the cosine vanishes and the real
    tangent has no value) the float routine still returns a finite, huge
    number, because the float next to [pi/2] is not [pi/2]; the model takes
    the value it returns for [radians(90)].  The model is meant for angles
    from 0 to 90 degrees, the dips of a fault: at other poles the float
    routine returns other huge numbers, and at the non-zero multiples of
    180 degrees a tiny non-zero number where the real tangent is 0. *)
Definition tan (x : R) : R :=
  if Req_dec_T (cos x) 0 then tan_at_pole else Rtrigo1.tan x.

End math.

Module np.

(** A 2-D array of floats, row by row. *)
Abbreviation ndarray2 := (list (list R)) (only parsing).

(** [np.zeros((n0, n1))] *)
Definition zeros (n0 n1 : nat) : ndarray2 := replicate n0 (replicate n1 0).

(** [np.linspace(start, stop, num)]: [num] evenly spaced samples from
    [start] to [stop], the end points included. *)
Definition linspace (start stop : R) (num : nat) : list R :=
  let step := (stop - start) / INR (num - 1) in
  (fun k => start + INR k * step) <$> seq 0 num.

(** [a[i, j]] *)
Definition getitem2 (a : ndarray2) (i j : nat) : option R :=
  row ← a !! i; row !! j.

(** [a[i, j] = v]: in place, an index out of range raises. *)
Definition setitem2 (a : ndarray2) (i j : nat) (v : R) : option ndarray2 :=
  row ← a !! i;
  if decide (j < length row)%nat then Some (<[i := <[j := v]> row]> a) else None.

(** [np.multiply(a, c)] with a scalar [c]. *)
Definition multiply (a : ndarray2) (c : R) : ndarray2 :=
  fmap (M := list) (fun v => v * c) <$> a.

(** [a + b] on two arrays of one shape. *)
Definition add (a b : ndarray2) : ndarray2 :=
  zip_with (zip_with Rplus) a b.

(** A 2x2 array such as [np.array([[a, b], [c, d]])]. *)
Record mat2 : Type := Mat2 { m00 : R; m01 : R; m10 : R; m11 : R }.

(** [M.dot(P)] for a 2x2 [M] and a column [P]. *)
Definition dot (M : mat2) (P : R * R) : R * R :=
  (m00 M * fst P + m01 M * snd P, m10 M * fst P + m11 M * snd P).

(** [M.dot(N)] for two 2x2 arrays. *)
Definition matmul (M N : mat2) : mat2 :=
  Mat2 (m00 M * m00 N + m01 M * m10 N) (m00 M * m01 N + m01 M * m11 N)
       (m10 M * m00 N + m11 M * m10 N) (m10 M * m01 N + m11 M * m11 N).

(** [M.T] *)
Definition T (M : mat2) : mat2 := Mat2 (m00 M) (m10 M) (m01 M) (m11 M).

Definition det (M : mat2) : R := m00 M * m11 M - m01 M * m10 M.

Definition eye2 : mat2 := Mat2 1 0 0 1.

(** The number of columns of a 2-D array of at least one row. *)
Definition ncols (a : ndarray2) : nat :=
  match a with
  | [] => 0%nat
  | row :: _ => length row
  end.

(** [a.T] for a 2-D array of at least one row, as the plots of cells 16 and
    21 take it: row [j] of the result is column [j] of [a].  The rows of an
    array have one length, so no lookup falls back on its default. *)
Definition transpose (a : ndarray2) : ndarray2 :=
  (fun j => (fun row => default 0 (row !! j)) <$> a) <$> seq 0 (ncols a).

End np.

(** ** Cells 6 and 8: material and fault parameters *)

Record FaultParameters : Type := {
  strike : R;
  dip : R;
  rake : R;
  slip : R;
  as_length : R;   (* along-strike length *)
  dd_width : R;    (* down-dip width *)
  cd_depth : R;    (* centroid depth *)
  xs : R;          (* x coordinate of the centre of the up-dip projection *)
  ys : R           (* y coordinate of same *)
}.

(** The values the notebook sets in cell 8. *)
Definition reference_fault : FaultParameters :=
  {| strike := 1; dip := 85; rake := -1; slip := 2;
     as_length := 15000; dd_width := 10000; cd_depth := 6000;
     xs := 0; ys := 0 |}.

(** Cell 6: the elastic constant used by Okada, from the Lame parameters. *)
Definition okada_alpha (lmda mu : R) : result R :=
  truediv (lmda + mu) (lmda + 2 * mu).

(** The values the notebook sets in cell 6. *)
Definition reference_lmda : R := 30e9.
Definition reference_mu : R := 30e9.

(** ** Cells 10, 12, 14: geometry normalisation *)

Record Centroid : Type := {
  rc : R;    (* radial surface distance from (xs, ys) to the centroid *)
  rcx : R;
  rcy : R;
  xc : R;
  yc : R
}.

(** Cell 10.  The only operation that can raise is the division. *)
Definition centroid (p : FaultParameters) : result Centroid :=
  rbind (truediv (cd_depth p) (math.tan (math.radians (dip p)))) (fun rc_ =>
  let rcx_ := rc_ * sin (math.radians (strike p + 90)) in
  let rcy_ := rc_ * cos (math.radians (strike p + 90)) in
  inr {| rc := rc_; rcx := rcx_; rcy := rcy_;
         xc := xs p + rcx_; yc := ys p + rcy_ |}).

(** Cell 12. *)
Definition ss (p : FaultParameters) : R := slip p * cos (math.radians (rake p)).
Definition ds (p : FaultParameters) : R := slip p * sin (math.radians (rake p)).

(** Cell 14: the rotation matrix [R] of the notebook (the name [R] is the
    type of the reals here). *)
Definition R_strike (strike_ : R) : np.mat2 :=
  np.Mat2 (cos (math.radians (strike_ - 90))) (- sin (math.radians (strike_ - 90)))
          (sin (math.radians (strike_ - 90))) (cos (math.radians (strike_ - 90))).

(** ** Cell 16: grid evaluation *)

(** The projection of the solver's strike-parallel and strike-normal
    displacements on the map axes, as the loop body writes it. *)
Definition UX_of (strike_ u0 u1 : R) : R :=
  u0 * sin (math.radians strike_) - u1 * cos (math.radians strike_).
Definition UY_of (strike_ u0 u1 : R) : R :=
  u0 * cos (math.radians strike_) - u1 * sin (math.radians strike_).

(** The three output arrays, mutated in place by the loop. *)
Record store : Type := Store {
  UX : np.ndarray2;
  UY : np.ndarray2;
  UZ : np.ndarray2
}.

(** A statement of a cell: it runs on the arrays and returns or raises; the
    arrays keep what was written before an exception. *)
Definition M (A : Type) : Type := store -> store * result A.

Definition ret {A : Type} (a : A) : M A := fun s => (s, inr a).
Definition raise {A : Type} (e : exn) : M A := fun s => (s, inl e).
Definition bind {A B : Type} (m : M A) (k : A -> M B) : M B :=
  fun s => match m s with
           | (s', inl e) => (s', inl e)
           | (s', inr a) => k a s'
           end.

Notation "x <- m ;; k" := (bind m (fun x => k))
  (at level 100, m at next level, right associativity).
Notation "m ;; k" := (bind m (fun _ => k))
  (at level 100, right associativity).

(** [assert(b)] *)
Definition assert (b : bool) : M unit :=
  if b then ret tt else raise AssertionError.

(** [l[i]] on a sequence. *)
Definition getitem (l : list R) (i : nat) : M R :=
  match l !! i with
  | Some v => ret v
  | None => raise IndexError
  end.

Definition set_UX (i j : nat) (v : R) : M unit := fun s =>
  match np.setitem2 (UX s) i j v with
  | Some a => (Store a (UY s) (UZ s), inr tt)
  | None => (s, inl IndexError)
  end.
Definition set_UY (i j : nat) (v : R) : M unit := fun s =>
  match np.setitem2 (UY s) i j v with
  | Some a => (Store (UX s) a (UZ s), inr tt)
  | None => (s, inl IndexError)
  end.
Definition set_UZ (i j : nat) (v : R) : M unit := fun s =>
  match np.setitem2 (UZ s) i j v with
  | Some a => (Store (UX s) (UY s) a, inr tt)
  | None => (s, inl IndexError)
  end.

(** [for k in l: body(k)]: an exception leaves the loop. *)
Fixpoint for_ {A : Type} (l : list A) (body : A -> M unit) : M unit :=
  match l with
  | [] => ret tt
  | k :: l' => body k ;; for_ l' body
  end.

(** [range(n)] *)
Definition range (n : nat) : list nat := seq 0 n.

Definition vec3 : Type := (R * R * R)%type.

(** The grid of cell 16: [n = (n0, n1)], [x = linspace(lo, hi, n[0])],
    [y = linspace(lo, hi, n[1])]. *)
Record Grid : Type := {
  n0 : nat;
  n1 : nat;
  lo : R;
  hi : R
}.

Definition reference_grid : Grid :=
  {| n0 := 101; n1 := 101; lo := -25000; hi := 25000 |}.

Definition grid_x (g : Grid) : list R := np.linspace (lo g) (hi g) (n0 g).
Definition grid_y (g : Grid) : list R := np.linspace (lo g) (hi g) (n1 g).

(** The samples [x[i]] and [y[j]] of the grid. *)
Definition x_at (g : Grid) (i : nat) : R :=
  lo g + INR i * ((hi g - lo g) / INR (n0 g - 1)).
Definition y_at (g : Grid) (j : nat) : R :=
  lo g + INR j * ((hi g - lo g) / INR (n1 g - 1)).

Section GridEvaluation.

(** The gradient tensor the solver returns; it is not used. *)
Variable grad : Type.

(** The external solver [okada_wrapper.dc3dwrapper]:
    [(alpha, xo, depth, dip, strike_width, dip_width, dislocation)] to
    [(success, u, grad_u)], where [success = 0] reports success. *)
Variable dc3dwrapper :
  R -> vec3 -> R -> R -> R * R -> R * R -> vec3 -> Z * vec3 * grad.

Variable alpha : R.
Variable p : FaultParameters.
Variable c : Centroid.
Variable g : Grid.

(** The observation point [(x[i], y[j])] in Okada geometry. *)
Definition Q_of (xi yj : R) : R * R :=
  let P := (xi - xc c, yj - yc c) in
  np.dot (R_strike (strike p)) P.

(** The solver call of the loop body at the observation point. *)
Definition okada_at (xi yj : R) : Z * vec3 * grad :=
  let Q := Q_of xi yj in
  dc3dwrapper alpha (fst Q, snd Q, 0) (cd_depth p) (dip p)
    (- as_length p / 2, as_length p / 2)
    (- dd_width p / 2, dd_width p / 2)
    (ss p, ds p, 0).

(** The body of the two loops, at indices [i] and [j]. *)
Definition loop_body (ij : nat * nat) : M unit :=
  let '(i, j) := ij in
  xi <- getitem (grid_x g) i ;;
  yj <- getitem (grid_y g) j ;;
  let '(success, u, _) := okada_at xi yj in
  assert (success =? 0)%Z ;;
  let '(u0, u1, u2) := u in
  set_UX i j (UX_of (strike p) u0 u1) ;;
  set_UY i j (UY_of (strike p) u0 u1) ;;
  set_UZ i j u2.

(** The solver call of the iteration [(i, j)], whether it reports success,
    and the displacement the iteration then stores. *)
Definition okada_ij (i j : nat) : Z * vec3 * grad :=
  okada_at (x_at g i) (y_at g j).

Definition succeeds (ij : nat * nat) : bool :=
  (fst (fst (okada_ij (fst ij) (snd ij))) =? 0)%Z.

Definition stored_ij (i j : nat) : vec3 :=
  let '(_, (u0, u1, u2), _) := okada_ij i j in
  (UX_of (strike p) u0 u1, UY_of (strike p) u0 u1, u2).

(** The nested loops of cell 16. *)
Definition grid_loops : M unit :=
  for_ (range (n0 g)) (fun i =>
    for_ (range (n1 g)) (fun j => loop_body (i, j))).

(** The arrays the loops start from. *)
Definition zero_store : store :=
  Store (np.zeros (n0 g) (n1 g)) (np.zeros (n0 g) (n1 g)) (np.zeros (n0 g) (n1 g)).

(** Cell 16 up to its plots: allocate the arrays, run the loops. *)
Definition cell16 : store * result unit := grid_loops zero_store.

End GridEvaluation.

(** ** Cells 18 and 21: line-of-sight projection *)

(** Cell 18: the pointing vector from incidence [theta] and azimuth [phi],
    both in degrees. *)
Definition p_vec (theta phi : R) : vec3 :=
  (sin (math.radians phi) * sin (math.radians theta),
   - cos (math.radians phi) * sin (math.radians theta),
   - cos (math.radians theta)).

Definition px (v : vec3) : R := fst (fst v).
Definition py (v : vec3) : R := snd (fst v).
Definition pz (v : vec3) : R := snd v.

(** Cell 21. *)
Definition ULOS_X (s : store) (pv : vec3) : np.ndarray2 := np.multiply (UX s) (px pv).
Definition ULOS_Y (s : store) (pv : vec3) : np.ndarray2 := np.multiply (UY s) (py pv).
Definition ULOS_Z (s : store) (pv : vec3) : np.ndarray2 := np.multiply (UZ s) (pz pv).

Definition ULOS (s : store) (pv : vec3) : np.ndarray2 :=
  np.add (np.add (ULOS_X s pv) (ULOS_Y s pv)) (ULOS_Z s pv).

(** ** The notebook, run from top to bottom *)

(** Where a run of all cells ends: at the first cell that raises, and then
    no later cell runs; or after the last cell, with the displacement
    arrays and the line-of-sight field.  [FailedAt] records the cell and the
    exception only: the arrays that a failing cell 16 leaves in the kernel
    are the store that [cell16] returns. *)
Inductive run : Type :=
  | FailedAt (cell : nat) (e : exn)
  | Finished (c : Centroid) (field : store) (los : np.ndarray2).

Section Notebook.

Variable grad : Type.
Variable dc3dwrapper :
  R -> vec3 -> R -> R -> R * R -> R * R -> vec3 -> Z * vec3 * grad.

Definition run_all (lmda mu : R) (p : FaultParameters) (g : Grid)
    (theta phi : R) : run :=
  match okada_alpha lmda mu with
  | inl e => FailedAt 6 e
  | inr alpha =>
      match centroid p with
      | inl e => FailedAt 10 e
      | inr c =>
          match cell16 grad dc3dwrapper alpha p c g with
          | (_, inl e) => FailedAt 16 e
          | (s, inr _) => Finished c s (ULOS s (p_vec theta phi))
          end
      end
  end.

End Notebook.

(** The two frame changes of cell 16 on a vector: [to_okada] is the rotation
    the loop applies to an observation point, [to_map] the projection it
    applies to the solver's horizontal displacement. *)
Definition to_okada (strike_ : R) (v : R * R) : R * R :=
  np.dot (R_strike strike_) v.
Definition to_map (strike_ : R) (u : R * R) : R * R :=
  (UX_of strike_ (fst u) (snd u), UY_of strike_ (fst u) (snd u)).

(** The displacement the three arrays hold at cell [(i, j)]. *)
Definition field_at (s : store) (i j : nat) : option vec3 :=
  ux ← np.getitem2 (UX s) i j;
  uy ← np.getitem2 (UY s) i j;
  uz ← np.getitem2 (UZ s) i j;
  Some (ux, uy, uz).

(** The index pairs of the grid in the order the two loops visit them. *)
Definition points (g : Grid) : list (nat * nat) :=
  i ← range (n0 g); pair i <$> range (n1 g).

(** An array of [n0] rows of [n1] entries. *)
Definition shape (n0 n1 : nat) (a : np.ndarray2) : Prop :=
  length a = n0 /\ Forall (fun row => length row = n1) a.

Definition store_shape (g : Grid) (s : store) : Prop :=
  shape (n0 g) (n1 g) (UX s) /\ shape (n0 g) (n1 g) (UY s) /\
  shape (n0 g) (n1 g) (UZ s).

(** Two stand-ins for the external solver, to run the notebook on: one
    reports success and returns the slip vector as the displacement, one
    reports a failure at every point. *)
Definition echo_solver : R -> vec3 -> R -> R -> R * R -> R * R -> vec3 -> Z * vec3 * unit :=
  fun _ _ _ _ _ _ dislocation => (0%Z, dislocation, tt).
Definition refusing_solver : R -> vec3 -> R -> R -> R * R -> R * R -> vec3 -> Z * vec3 * unit :=
  fun _ _ _ _ _ _ _ => (1%Z, (0, 0, 0), tt).

(** A third stand-in: it reports success, with the displacement (1, 2, 3),
    at the observation point whose first Okada coordinate is 0, and a
    failure elsewhere. *)
Definition near_solver : R -> vec3 -> R -> R -> R * R -> R * R -> vec3 -> Z * vec3 * unit :=
  fun _ xo _ _ _ _ _ =>
    if Req_dec_T (fst (fst xo)) 0 then (0%Z, (1, 2, 3), tt)
    else (1%Z, (0, 0, 0), tt).

(** A grid of one row and two cells: the points (0, 0) and (0, 1). *)
Definition two_cell_grid : Grid :=
  {| n0 := 1; n1 := 2; lo := 0; hi := 1 |}.

(** A centroid to run cell 16 on its own. *)
Definition origin_centroid : Centroid :=
  {| rc := 0; rcx := 0; rcy := 0; xc := 0; yc := 0 |}.

(** The reference fault with another dip, and with another slip. *)
Definition with_dip (d : R) (p : FaultParameters) : FaultParameters :=
  {| strike := strike p; dip := d; rake := rake p; slip := slip p;
     as_length := as_length p; dd_width := dd_width p; cd_depth := cd_depth p;
     xs := xs p; ys := ys p |}.
Definition with_slip (sl : R) (p : FaultParameters) : FaultParameters :=
  {| strike := strike p; dip := dip p; rake := rake p; slip := sl;
     as_length := as_length p; dd_width := dd_width p; cd_depth := cd_depth p;
     xs := xs p; ys := ys p |}.

(** The centroid cell 10 computes when its division is defined. *)
Definition centroid_value (p : FaultParameters) : Centroid :=
  let rc_ := cd_depth p / math.tan (math.radians (dip p)) in
  {| rc := rc_;
     rcx := rc_ * sin (math.radians (strike p + 90));
     rcy := rc_ * cos (math.radians (strike p + 90));
     xc := xs p + rc_ * sin (math.radians (strike p + 90));
     yc := ys p + rc_ * cos (math.radians (strike p + 90)) |}.

(** The dot product of two 3-vectors. *)
Definition dot3 (u v : vec3) : R := px u * px v + py u * py v + pz u * pz v.

(** The index pairs of [l] are indices of the grid. *)
Definition in_grid (g : Grid) (l : list (nat * nat)) : Prop :=
  forall i j, (i, j) ∈ l -> (i < n0 g)%nat /\ (j < n1 g)%nat.

(** From [H : e = 1], the equation [e * a = a], for the linear solver. *)
Ltac scale_unit H a :=
  let Ha := fresh "Hscale" in
  pose proof (f_equal (fun t => t * a) H) as Ha; simpl in Ha;
  rewrite Rmult_1_l in Ha.

(** * Properties *)

(** ** Angles *)

Lemma radians_0 : math.radians 0 = 0.
Proof. unfold math.radians. lra. Qed.

Lemma radians_90 : math.radians 90 = PI / 2.
Proof. unfold math.radians. lra. Qed.

Lemma radians_minus (a b : R) :
  math.radians (a - b) = math.radians a - math.radians b.
Proof. unfold math.radians. lra. Qed.

Lemma radians_plus (a b : R) :
  math.radians (a + b) = math.radians a + math.radians b.
Proof. unfold math.radians. lra. Qed.

Lemma radians_acute (d : R) :
  0 < d < 90 -> 0 < math.radians d < PI / 2.
Proof.
  intros [Hlo Hhi]. unfold math.radians.
  pose proof PI_RGT_0 as Hpi. split; nra.
Qed.

Lemma cos_minus_PI2 (x : R) : cos (x - PI / 2) = sin x.
Proof.
  replace (x - PI / 2) with (- (PI / 2 - x)) by lra.
  rewrite cos_neg. apply cos_shift.
Qed.

Lemma sin_minus_PI2 (x : R) : sin (x - PI / 2) = - cos x.
Proof.
  replace (x - PI / 2) with (- (PI / 2 - x)) by lra.
  rewrite sin_neg, sin_shift. reflexivity.
Qed.

Lemma sin2_cos2_mul (x : R) : sin x * sin x + cos x * cos x = 1.
Proof. pose proof (sin2_cos2 x) as H. unfold Rsqr in H. exact H. Qed.

(** ** The rotation matrix of cell 14 *)

(** In terms of the strike itself: the rows of [R] are the strike-parallel
    and the strike-normal directions. *)
Lemma R_strike_rows (s : R) :
  R_strike s =
  np.Mat2 (sin (math.radians s)) (cos (math.radians s))
          (- cos (math.radians s)) (sin (math.radians s)).
Proof.
  unfold R_strike. rewrite radians_minus, radians_90.
  rewrite cos_minus_PI2, sin_minus_PI2. f_equal. lra.
Qed.

(** The transpose of [R] undoes [R] on every vector. *)
Lemma R_strike_transpose_dot (s : R) (v : R * R) :
  np.dot (np.T (R_strike s)) (np.dot (R_strike s) v) = v.
Proof.
  pose proof (sin2_cos2_mul (math.radians (s - 90))) as H.
  destruct v as [a b]. unfold R_strike, np.T, np.dot. simpl.
  scale_unit H a. scale_unit H b. f_equal; lra.
Qed.

Lemma R_strike_dot_transpose (s : R) (v : R * R) :
  np.dot (R_strike s) (np.dot (np.T (R_strike s)) v) = v.
Proof.
  pose proof (sin2_cos2_mul (math.radians (s - 90))) as H.
  destruct v as [a b]. unfold R_strike, np.T, np.dot. simpl.
  scale_unit H a. scale_unit H b. f_equal; lra.
Qed.

(** C10: for every strike the matrix [R] of cell 14 is a rotation: its
    transpose times itself is the identity and its determinant is 1; so the
    map-to-fault-frame transform of an observation point is invertible, and
    its inverse is the product with the transpose of [R]. *)
Theorem C10_R_is_a_rotation (s : R) :
  np.matmul (np.T (R_strike s)) (R_strike s) = np.eye2 /\
  np.det (R_strike s) = 1 /\
  (forall v, np.dot (np.T (R_strike s)) (np.dot (R_strike s) v) = v) /\
  (forall v, np.dot (R_strike s) (np.dot (np.T (R_strike s)) v) = v).
Proof.
  pose proof (sin2_cos2_mul (math.radians (s - 90))) as H.
  unfold R_strike, np.matmul, np.T, np.det, np.dot, np.eye2. simpl.
  split; [f_equal; nra |]. split; [nra |]. split.
  - apply R_strike_transpose_dot.
  - apply R_strike_dot_transpose.
Qed.

(** ** The pointing vector of cell 18 *)

(** C7: for every incidence [theta] and azimuth [phi] the pointing vector
    has unit norm. *)
Theorem C7_p_vec_unit_norm (theta phi : R) :
  px (p_vec theta phi) ^ 2 + py (p_vec theta phi) ^ 2 + pz (p_vec theta phi) ^ 2 = 1.
Proof.
  unfold p_vec, px, py, pz. simpl.
  pose proof (sin2_cos2_mul (math.radians phi)) as Hphi.
  pose proof (sin2_cos2_mul (math.radians theta)) as Hth.
  nra.
Qed.

(** ** Round trip of the two frame changes *)

(** What the round trip gives for any strike: the east component comes
    back, the north component comes back turned by twice the strike. *)
Lemma to_map_to_okada (s x y : R) :
  to_map s (to_okada s (x, y)) =
  (x, x * sin (2 * math.radians s) + y * cos (2 * math.radians s)).
Proof.
  unfold to_map, to_okada. rewrite R_strike_rows.
  unfold np.dot, UX_of, UY_of. simpl.
  rewrite sin_2a, cos_2a.
  pose proof (sin2_cos2_mul (math.radians s)) as H.
  scale_unit H x. scale_unit H y. f_equal; lra.
Qed.

(** The inverse of the rotation is the product with the transpose of [R]:
    its north component has [+] where [UY] has [-]. *)
Lemma transpose_dot_components (s u0 u1 : R) :
  np.dot (np.T (R_strike s)) (u0, u1) =
  (u0 * sin (math.radians s) - u1 * cos (math.radians s),
   u0 * cos (math.radians s) + u1 * sin (math.radians s)).
Proof.
  rewrite R_strike_rows. unfold np.T, np.dot. simpl. f_equal; lra.
Qed.

Lemma transpose_undoes_to_okada (s x y : R) :
  np.dot (np.T (R_strike s)) (to_okada s (x, y)) = (x, y).
Proof.
  unfold to_okada. apply R_strike_transpose_dot.
Qed.

(** C1: at strike 90 the rotation of step 4.2.2 is the identity, and the
    projection of step 4.2.5 sends the vector (0, 1) to (0, -1): the round
    trip does not return the vector it started from. *)
Theorem C1_round_trip_at_strike_90 :
  to_okada 90 (0, 1) = (0, 1) /\
  to_map 90 (to_okada 90 (0, 1)) = (0, -1) /\
  to_map 90 (to_okada 90 (0, 1)) <> (0, 1).
Proof.
  assert (H1 : to_okada 90 (0, 1) = (0, 1)).
  { unfold to_okada. rewrite R_strike_rows, radians_90, sin_PI2, cos_PI2.
    unfold np.dot. simpl. f_equal; lra. }
  assert (H2 : to_map 90 (0, 1) = (0, -1)).
  { unfold to_map, UX_of, UY_of. rewrite radians_90, sin_PI2, cos_PI2.
    simpl. f_equal; lra. }
  rewrite H1, H2. repeat split.
  intros Heq. injection Heq. lra.
Qed.

(** ** Arrays *)

Lemma shape_zeros (a b : nat) : shape a b (np.zeros a b).
Proof.
  unfold shape, np.zeros. split.
  - apply length_replicate.
  - apply Forall_replicate. apply length_replicate.
Qed.

Lemma getitem2_zeros (a b i j : nat) :
  (i < a)%nat -> (j < b)%nat -> np.getitem2 (np.zeros a b) i j = Some 0.
Proof.
  intros Hi Hj. unfold np.getitem2, np.zeros.
  rewrite lookup_replicate_2 by exact Hi. simpl.
  apply lookup_replicate_2. exact Hj.
Qed.

Lemma shape_row (a b : nat) (arr : np.ndarray2) (i : nat) :
  shape a b arr -> (i < a)%nat ->
  exists row, arr !! i = Some row /\ length row = b.
Proof.
  intros [Hlen Hrows] Hi.
  destruct (lookup_lt_is_Some_2 arr i) as [row Hrow]; [lia |].
  exists row. split; [exact Hrow |].
  rewrite Forall_lookup in Hrows. exact (Hrows i row Hrow).
Qed.

(** An assignment [a[i, j] = v] inside the array: it succeeds, keeps the
    shape, and changes the cell [(i, j)] only. *)
Lemma setitem2_spec (a b : nat) (arr : np.ndarray2) (i j : nat) (v : R) :
  shape a b arr -> (i < a)%nat -> (j < b)%nat ->
  exists arr',
    np.setitem2 arr i j v = Some arr' /\
    shape a b arr' /\
    np.getitem2 arr' i j = Some v /\
    (forall i' j', (i', j') <> (i, j) ->
                   np.getitem2 arr' i' j' = np.getitem2 arr i' j').
Proof.
  intros Hsh Hi Hj.
  destruct (shape_row a b arr i Hsh Hi) as (row & Hrow & Hlen).
  destruct Hsh as [Hlen_arr Hrows].
  exists (<[i := <[j := v]> row]> arr).
  unfold np.setitem2. rewrite Hrow. simpl.
  rewrite decide_True by lia.
  split; [reflexivity |]. split; [| split].
  - split.
    + rewrite length_insert. exact Hlen_arr.
    + apply Forall_insert; [exact Hrows |].
      rewrite length_insert. exact Hlen.
  - unfold np.getitem2.
    rewrite list_lookup_insert_eq by lia. simpl.
    apply list_lookup_insert_eq. lia.
  - intros i' j' Hne. unfold np.getitem2.
    destruct (decide (i' = i)) as [-> | Hi'].
    + rewrite list_lookup_insert_eq by lia. rewrite Hrow. simpl.
      apply list_lookup_insert_ne. congruence.
    + rewrite list_lookup_insert_ne by congruence. reflexivity.
Qed.

Lemma lookup_linspace (a b : R) (num i : nat) :
  (i < num)%nat ->
  np.linspace a b num !! i = Some (a + INR i * ((b - a) / INR (num - 1))).
Proof.
  intros Hi. unfold np.linspace.
  rewrite list_lookup_fmap, lookup_seq_lt by exact Hi. reflexivity.
Qed.

Lemma elem_of_points (g : Grid) (i j : nat) :
  (i, j) ∈ points g <-> (i < n0 g)%nat /\ (j < n1 g)%nat.
Proof.
  unfold points, range. rewrite list_elem_of_bind. split.
  - intros (k & Hin & Hk). rewrite list_elem_of_fmap in Hin.
    destruct Hin as (j' & Heq & Hj'). inversion Heq; subst.
    rewrite elem_of_seq in Hk, Hj'. lia.
  - intros [Hi Hj]. exists i. split.
    + rewrite list_elem_of_fmap. exists j. split; [reflexivity |].
      rewrite elem_of_seq. lia.
    + rewrite elem_of_seq. lia.
Qed.

(** ** The loops of cell 16 *)

Lemma for_app {A : Type} (l1 l2 : list A) (body : A -> M unit) (s : store) :
  for_ (l1 ++ l2) body s = (for_ l1 body ;; for_ l2 body) s.
Proof.
  revert s. induction l1 as [| k l1 IH]; intros s; simpl.
  - reflexivity.
  - unfold bind in *. destruct (body k s) as [s1 [e | []]].
    + reflexivity.
    + apply IH.
Qed.

(** Two nested loops visit the pairs of indices row by row. *)
Lemma for_nested {A B : Type} (l1 : list A) (l2 : list B)
    (body : A * B -> M unit) (s : store) :
  for_ l1 (fun i => for_ l2 (fun j => body (i, j))) s =
  for_ (i ← l1; pair i <$> l2) body s.
Proof.
  revert s. induction l1 as [| i l1 IH]; intros s.
  - reflexivity.
  - change ((i :: l1) ≫= (fun i => pair i <$> l2))
      with ((pair i <$> l2) ++ (l1 ≫= (fun i => pair i <$> l2))).
    rewrite for_app. simpl. unfold bind.
    assert (Hrow : forall s0, for_ l2 (fun j => body (i, j)) s0
                              = for_ (pair i <$> l2) body s0).
    { clear. induction l2 as [| j l2 IHj]; intros s0; simpl; [reflexivity |].
      unfold bind. destruct (body (i, j) s0) as [s1 [e | []]]; [reflexivity |].
      apply IHj. }
    rewrite Hrow.
    destruct (for_ (pair i <$> l2) body s) as [s1 [e | []]]; [reflexivity |].
    apply IH.
Qed.

(** A list with an element that satisfies a decidable property splits at
    the first such element. *)
Lemma first_split {A : Type} (f : A -> bool) (l : list A) :
  (exists k, k ∈ l /\ f k = false) ->
  exists l1 k l2,
    l = l1 ++ k :: l2 /\ Forall (fun k' => f k' = true) l1 /\ f k = false.
Proof.
  induction l as [| a l IH]; intros (k & Hin & Hk).
  - apply elem_of_nil in Hin. contradiction.
  - destruct (f a) eqn:Hfa.
    + apply elem_of_cons in Hin. destruct Hin as [-> | Hin]; [congruence |].
      destruct IH as (l1 & k' & l2 & -> & Hall & Hk'); [eauto |].
      exists (a :: l1), k', l2. repeat split; [| exact Hk'].
      constructor; assumption.
    + exists [], a, l. repeat split; [constructor | exact Hfa].
Qed.

Section GridEvaluationProps.

Context {grad : Type}.
Context (dc3dwrapper :
  R -> vec3 -> R -> R -> R * R -> R * R -> vec3 -> Z * vec3 * grad).
Context (alpha : R) (p : FaultParameters) (c : Centroid) (g : Grid).

Local Abbreviation body := (loop_body grad dc3dwrapper alpha p c g).
Local Abbreviation ok := (succeeds grad dc3dwrapper alpha p c g).
Local Abbreviation stored := (stored_ij grad dc3dwrapper alpha p c g).

Lemma grid_loops_points (s : store) :
  grid_loops grad dc3dwrapper alpha p c g s = for_ (points g) body s.
Proof. unfold grid_loops, points. apply for_nested. Qed.

(** An iteration whose solver call does not report success raises, and
    writes nothing. *)
Lemma loop_body_failure (s : store) (i j : nat) :
  (i < n0 g)%nat -> (j < n1 g)%nat -> ok (i, j) = false ->
  body (i, j) s = (s, inl AssertionError).
Proof.
  intros Hi Hj Hok. unfold body, loop_body, bind, getitem, grid_x, grid_y.
  rewrite !lookup_linspace by assumption. unfold ret.
  fold (x_at g i) (y_at g j).
  unfold ok, succeeds, okada_ij in Hok. simpl in Hok.
  destruct (okada_at grad dc3dwrapper alpha p c (x_at g i) (y_at g j))
    as [[success u] gr].
  simpl in Hok. rewrite Hok. reflexivity.
Qed.

(** An iteration whose solver call reports success writes the cell
    [(i, j)] of the three arrays and nothing else. *)
Lemma loop_body_success (s : store) (i j : nat) :
  store_shape g s -> (i < n0 g)%nat -> (j < n1 g)%nat -> ok (i, j) = true ->
  exists s',
    body (i, j) s = (s', inr tt) /\
    store_shape g s' /\
    field_at s' i j = Some (stored i j) /\
    (forall i' j', (i', j') <> (i, j) -> field_at s' i' j' = field_at s i' j').
Proof.
  intros (Hx & Hy & Hz) Hi Hj Hok.
  unfold body, loop_body, bind, getitem, grid_x, grid_y.
  rewrite !lookup_linspace by assumption. unfold ret.
  fold (x_at g i) (y_at g j).
  unfold ok, succeeds, okada_ij in Hok. simpl in Hok.
  unfold stored, stored_ij, okada_ij.
  destruct (okada_at grad dc3dwrapper alpha p c (x_at g i) (y_at g j))
    as [[success [[u0 u1] u2]] gr].
  simpl in Hok. rewrite Hok. simpl.
  destruct (setitem2_spec _ _ _ i j (UX_of (strike p) u0 u1) Hx Hi Hj)
    as (ax & Hax & Hshx & Hgx & Hox).
  destruct (setitem2_spec _ _ _ i j (UY_of (strike p) u0 u1) Hy Hi Hj)
    as (ay & Hay & Hshy & Hgy & Hoy).
  destruct (setitem2_spec _ _ _ i j u2 Hz Hi Hj)
    as (az & Haz & Hshz & Hgz & Hoz).
  exists (Store ax ay az).
  unfold set_UX, set_UY, set_UZ. rewrite Hax. simpl. rewrite Hay. simpl.
  rewrite Haz. simpl.
  split; [reflexivity |]. split; [split; [| split]; assumption |]. split.
  - unfold field_at. simpl. rewrite Hgx, Hgy, Hgz. reflexivity.
  - intros i' j' Hne. unfold field_at. simpl.
    rewrite (Hox i' j' Hne), (Hoy i' j' Hne), (Hoz i' j' Hne). reflexivity.
Qed.

Lemma in_grid_points : in_grid g (points g).
Proof. intros i j Hin. apply elem_of_points. exact Hin. Qed.

Lemma in_grid_cons k l : in_grid g (k :: l) -> in_grid g l.
Proof. intros H i j Hin. apply H. apply elem_of_cons. right. exact Hin. Qed.

Lemma in_grid_app_l l1 l2 : in_grid g (l1 ++ l2) -> in_grid g l1.
Proof. intros H i j Hin. apply H. apply elem_of_app. left. exact Hin. Qed.

Lemma in_grid_app_r l1 l2 : in_grid g (l1 ++ l2) -> in_grid g l2.
Proof. intros H i j Hin. apply H. apply elem_of_app. right. exact Hin. Qed.

(** A run of the loop over points that all succeed: it completes, and
    the arrays hold the stored displacement at the visited cells and are
    unchanged elsewhere. *)
Lemma for_points_complete (l : list (nat * nat)) (s : store) :
  store_shape g s -> in_grid g l -> Forall (fun k => ok k = true) l ->
  exists s',
    for_ l body s = (s', inr tt) /\
    store_shape g s' /\
    (forall i j, (i, j) ∈ l -> field_at s' i j = Some (stored i j)) /\
    (forall i j, (i, j) ∉ l -> field_at s' i j = field_at s i j).
Proof.
  revert s. induction l as [| [i0 j0] l IH]; intros s Hsh Hin Hall.
  - exists s. repeat split; try assumption; try apply Hsh.
    intros i j H. apply elem_of_nil in H. contradiction.
  - inversion Hall as [| ? ? Hk Hl]; subst.
    destruct (Hin i0 j0) as [Hi0 Hj0]; [apply elem_of_cons; auto |].
    destruct (loop_body_success s i0 j0 Hsh Hi0 Hj0 Hk)
      as (s1 & Hrun1 & Hsh1 & Hat1 & Hoth1).
    destruct (IH s1 Hsh1 (in_grid_cons _ _ Hin) Hl)
      as (s' & Hrun & Hsh' & Hat & Hoth).
    exists s'. cbn [for_]. unfold bind. rewrite Hrun1.
    split; [exact Hrun |]. split; [exact Hsh' |]. split.
    + intros i j Hij.
      destruct (decide ((i, j) ∈ l)) as [Hl' | Hl']; [auto |].
      apply elem_of_cons in Hij. destruct Hij as [Heq | Hij]; [| contradiction].
      inversion Heq; subst. rewrite (Hoth i0 j0 Hl'). exact Hat1.
    + intros i j Hij. apply not_elem_of_cons in Hij. destruct Hij as [Hne Hl'].
      rewrite (Hoth i j Hl'). apply Hoth1. exact Hne.
Qed.

(** A run that meets a point whose solver call fails, after points that
    all succeed: it raises there, whatever points would follow, and the
    arrays are as the points before the failure left them. *)
Lemma for_points_abort (l1 l2 : list (nat * nat)) (k : nat * nat) (s : store) :
  store_shape g s -> in_grid g (l1 ++ k :: l2) ->
  Forall (fun k' => ok k' = true) l1 -> ok k = false ->
  exists s',
    for_ (l1 ++ k :: l2) body s = (s', inl AssertionError) /\
    store_shape g s' /\
    (forall i j, (i, j) ∈ l1 -> field_at s' i j = Some (stored i j)) /\
    (forall i j, (i, j) ∉ l1 -> field_at s' i j = field_at s i j).
Proof.
  intros Hsh Hin Hall Hk.
  destruct (for_points_complete l1 s Hsh (in_grid_app_l _ _ Hin) Hall)
    as (s' & Hrun & Hsh' & Hat & Hoth).
  exists s'. rewrite for_app. unfold bind at 1. rewrite Hrun.
  destruct k as [i0 j0].
  destruct (in_grid_app_r _ _ Hin i0 j0) as [Hi0 Hj0]; [apply elem_of_cons; auto |].
  cbn [for_]. unfold bind. rewrite (loop_body_failure s' i0 j0 Hi0 Hj0 Hk).
  repeat split; try assumption; apply Hsh'.
Qed.

Lemma field_at_zero_store (i j : nat) :
  (i < n0 g)%nat -> (j < n1 g)%nat ->
  field_at (zero_store g) i j = Some (0, 0, 0).
Proof.
  intros Hi Hj. unfold field_at, zero_store. simpl.
  rewrite getitem2_zeros by assumption. reflexivity.
Qed.

Lemma store_shape_zero_store : store_shape g (zero_store g).
Proof. repeat split; simpl; apply shape_zeros. Qed.

(** The two ways cell 16 can end. *)
Lemma cell16_completes :
  (forall i j, (i < n0 g)%nat -> (j < n1 g)%nat -> ok (i, j) = true) ->
  exists s',
    cell16 grad dc3dwrapper alpha p c g = (s', inr tt) /\
    store_shape g s' /\
    (forall i j, (i < n0 g)%nat -> (j < n1 g)%nat ->
                 field_at s' i j = Some (stored i j)).
Proof.
  intros Hall. unfold cell16. rewrite grid_loops_points.
  destruct (for_points_complete (points g) (zero_store g)
              store_shape_zero_store in_grid_points)
    as (s' & Hrun & Hsh & Hat & _).
  { apply Forall_forall. intros [i j] Hin. apply elem_of_points in Hin.
    apply Hall; apply Hin. }
  exists s'. split; [exact Hrun |]. split; [exact Hsh |].
  intros i j Hi Hj. apply Hat. apply elem_of_points. auto.
Qed.

Lemma cell16_aborts :
  (exists i j, (i < n0 g)%nat /\ (j < n1 g)%nat /\ ok (i, j) = false) ->
  exists l1 k l2 s',
    points g = l1 ++ k :: l2 /\
    Forall (fun k' => ok k' = true) l1 /\ ok k = false /\
    cell16 grad dc3dwrapper alpha p c g = (s', inl AssertionError) /\
    store_shape g s' /\
    (forall i j, (i, j) ∈ l1 -> field_at s' i j = Some (stored i j)) /\
    (forall i j, (i < n0 g)%nat -> (j < n1 g)%nat -> (i, j) ∉ l1 ->
                 field_at s' i j = Some (0, 0, 0)).
Proof.
  intros (i0 & j0 & Hi0 & Hj0 & Hbad).
  destruct (first_split ok (points g)) as (l1 & k & l2 & Hsplit & Hall & Hk).
  { exists (i0, j0). split; [apply elem_of_points; auto | exact Hbad]. }
  assert (Hin : in_grid g (l1 ++ k :: l2)).
  { rewrite <- Hsplit. apply in_grid_points. }
  destruct (for_points_abort l1 l2 k (zero_store g)
              store_shape_zero_store Hin Hall Hk)
    as (s' & Hrun & Hsh & Hat & Hoth).
  exists l1, k, l2, s'. unfold cell16. rewrite grid_loops_points, Hsplit.
  repeat split; try assumption; try apply Hsh.
  intros i j Hi Hj Hnot. rewrite (Hoth i j Hnot).
  apply field_at_zero_store; assumption.
Qed.

(** Whether every point of the grid succeeds can be decided. *)
Lemma all_or_some_failure :
  (forall i j, (i < n0 g)%nat -> (j < n1 g)%nat -> ok (i, j) = true) \/
  (exists i j, (i < n0 g)%nat /\ (j < n1 g)%nat /\ ok (i, j) = false).
Proof.
  assert (Hdec : forall k, {ok k = true} + {ok k = false}).
  { intros k. destruct (ok k); [left | right]; reflexivity. }
  destruct (Forall_Exists_dec _ _ Hdec (points g)) as [Hall | Hex].
  - left. intros i j Hi Hj.
    rewrite Forall_forall in Hall. apply Hall.
    apply elem_of_points. auto.
  - right. apply Exists_exists in Hex. destruct Hex as ([i j] & Hin & Hbad).
    apply elem_of_points in Hin. exists i, j. tauto.
Qed.

End GridEvaluationProps.

(** ** Cell 6 *)

Lemma okada_alpha_defined (lmda mu : R) :
  lmda + 2 * mu <> 0 ->
  okada_alpha lmda mu = inr ((lmda + mu) / (lmda + 2 * mu)).
Proof.
  intros Hne. unfold okada_alpha, truediv.
  destruct (Req_dec_T (lmda + 2 * mu) 0); [contradiction | reflexivity].
Qed.

Lemma okada_alpha_reference :
  okada_alpha reference_lmda reference_mu = inr (2 / 3).
Proof.
  rewrite okada_alpha_defined.
  - f_equal. unfold reference_lmda, reference_mu. lra.
  - unfold reference_lmda, reference_mu. lra.
Qed.

(** ** Grid evaluation: what cell 16 stores, and how it fails *)

Section GridClaims.

Context {grad : Type}.
Context (dc3dwrapper :
  R -> vec3 -> R -> R -> R * R -> R * R -> vec3 -> Z * vec3 * grad).
Context (alpha : R) (p : FaultParameters) (c : Centroid) (g : Grid).

Local Abbreviation cell := (cell16 grad dc3dwrapper alpha p c g).
Local Abbreviation ok := (succeeds grad dc3dwrapper alpha p c g).
Local Abbreviation stored := (stored_ij grad dc3dwrapper alpha p c g).

(** C2: when cell 16 has run to its end, every cell [(i, j)] of the
    three arrays holds the projection of what the solver returned for the
    grid point [(x[i], y[j])]: [UX] is [u0*sin(strike) - u1*cos(strike)],
    [UY] is [u0*cos(strike) - u1*sin(strike)], and [UZ] is [u2]. *)
Theorem C2_stored_components (i j : nat) (flag : Z) (u0 u1 u2 : R) (gr : grad) :
  snd cell = inr tt ->
  (i < n0 g)%nat -> (j < n1 g)%nat ->
  okada_ij grad dc3dwrapper alpha p c g i j = (flag, (u0, u1, u2), gr) ->
  np.getitem2 (UX (fst cell)) i j
    = Some (u0 * sin (math.radians (strike p)) - u1 * cos (math.radians (strike p))) /\
  np.getitem2 (UY (fst cell)) i j
    = Some (u0 * cos (math.radians (strike p)) - u1 * sin (math.radians (strike p))) /\
  np.getitem2 (UZ (fst cell)) i j = Some u2.
Proof.
  intros Hend Hi Hj Hsol.
  destruct (all_or_some_failure dc3dwrapper alpha p c g) as [Hall | Hbad].
  - destruct (cell16_completes dc3dwrapper alpha p c g Hall)
      as (s' & Hrun & _ & Hat).
    rewrite Hrun. simpl. specialize (Hat i j Hi Hj).
    unfold stored_ij in Hat. rewrite Hsol in Hat.
    unfold field_at in Hat.
    destruct (np.getitem2 (UX s') i j) as [ux |]; [| discriminate].
    destruct (np.getitem2 (UY s') i j) as [uy |]; [| discriminate].
    destruct (np.getitem2 (UZ s') i j) as [uz |]; [| discriminate].
    simpl in Hat. inversion Hat; subst. unfold UX_of, UY_of. auto.
  - destruct (cell16_aborts dc3dwrapper alpha p c g Hbad)
      as (l1 & k & l2 & s' & _ & _ & _ & Hrun & _).
    rewrite Hrun in Hend. discriminate.
Qed.

(** C4, as the notebook has it: if the solver reports a failure at some
    grid point, cell 16 raises [AssertionError] at the first such point in
    loop order; the arrays keep the cells written for the points before it,
    no cell at or after it is written, and a run of the notebook ends at
    cell 16 with that error, so that no later cell runs.  If the solver
    reports success at every grid point, cell 16 runs to its end with the
    three arrays of the shape of the grid and every cell written, and the
    run of the notebook finishes. *)
Theorem C4_fail_fast (lmda mu theta phi : R) :
  okada_alpha lmda mu = inr alpha ->
  centroid p = inr c ->
  ((exists i j, (i < n0 g)%nat /\ (j < n1 g)%nat /\ ok (i, j) = false) ->
   exists l1 k l2,
     points g = l1 ++ k :: l2 /\
     Forall (fun k' => ok k' = true) l1 /\ ok k = false /\
     snd cell = inl AssertionError /\
     (forall i j, (i, j) ∈ l1 -> field_at (fst cell) i j = Some (stored i j)) /\
     (forall i j, (i < n0 g)%nat -> (j < n1 g)%nat -> (i, j) ∉ l1 ->
                  field_at (fst cell) i j = Some (0, 0, 0)) /\
     run_all grad dc3dwrapper lmda mu p g theta phi = FailedAt 16 AssertionError)
  /\
  ((forall i j, (i < n0 g)%nat -> (j < n1 g)%nat -> ok (i, j) = true) ->
   snd cell = inr tt /\
   store_shape g (fst cell) /\
   (forall i j, (i < n0 g)%nat -> (j < n1 g)%nat ->
                field_at (fst cell) i j = Some (stored i j)) /\
   run_all grad dc3dwrapper lmda mu p g theta phi
     = Finished c (fst cell) (ULOS (fst cell) (p_vec theta phi))).
Proof.
  intros Ha Hc. split.
  - intros Hbad.
    destruct (cell16_aborts dc3dwrapper alpha p c g Hbad)
      as (l1 & k & l2 & s' & Hsplit & Hall & Hk & Hrun & _ & Hat & Hoth).
    exists l1, k, l2. unfold run_all. rewrite Ha, Hc, Hrun. simpl.
    repeat split; assumption.
  - intros Hall.
    destruct (cell16_completes dc3dwrapper alpha p c g Hall)
      as (s' & Hrun & Hsh & Hat).
    unfold run_all. rewrite Ha, Hc, Hrun. simpl.
    split; [reflexivity |]. split; [exact Hsh |]. split; [exact Hat |].
    reflexivity.
Qed.

(** C9: for a fault with zero slip the strike-slip and dip-slip
    components are zero, and if the solver returns the zero displacement
    for the zero slip vector, every cell of the three arrays is zero after
    cell 16, whether it ran to its end or not. *)
Theorem C9_zero_slip_zero_field (i j : nat) :
  slip p = 0 ->
  (forall a xo depth dip_ al aw,
      snd (fst (dc3dwrapper a xo depth dip_ al aw (0, 0, 0))) = (0, 0, 0)) ->
  (i < n0 g)%nat -> (j < n1 g)%nat ->
  ss p = 0 /\ ds p = 0 /\
  np.getitem2 (UX (fst cell)) i j = Some 0 /\
  np.getitem2 (UY (fst cell)) i j = Some 0 /\
  np.getitem2 (UZ (fst cell)) i j = Some 0.
Proof.
  intros Hslip Hzero Hi Hj.
  assert (Hss : ss p = 0) by (unfold ss; rewrite Hslip; lra).
  assert (Hds : ds p = 0) by (unfold ds; rewrite Hslip; lra).
  split; [exact Hss |]. split; [exact Hds |].
  assert (Hstored : forall i' j', stored i' j' = (0, 0, 0)).
  { intros i' j'. unfold stored_ij, okada_ij, okada_at.
    rewrite Hss, Hds.
    match goal with
    | |- context [dc3dwrapper ?a ?xo ?d ?dp ?al ?aw (0, 0, 0)] =>
        pose proof (Hzero a xo d dp al aw) as Hu;
        destruct (dc3dwrapper a xo d dp al aw (0, 0, 0)) as [[flag u] gr]
    end.
    simpl in Hu. subst u. unfold UX_of, UY_of. repeat f_equal; lra. }
  assert (Hfield : field_at (fst cell) i j = Some (0, 0, 0)).
  { destruct (all_or_some_failure dc3dwrapper alpha p c g) as [Hall | Hbad].
    - destruct (cell16_completes dc3dwrapper alpha p c g Hall)
        as (s' & Hrun & _ & Hat).
      rewrite Hrun. simpl. rewrite (Hat i j Hi Hj), Hstored. reflexivity.
    - destruct (cell16_aborts dc3dwrapper alpha p c g Hbad)
        as (l1 & k & l2 & s' & _ & _ & _ & Hrun & _ & Hat & Hoth).
      rewrite Hrun. simpl.
      destruct (decide ((i, j) ∈ l1)) as [Hin | Hnot].
      + rewrite (Hat i j Hin), Hstored. reflexivity.
      + apply Hoth; assumption. }
  unfold field_at in Hfield.
  destruct (np.getitem2 (UX (fst cell)) i j) as [ux |]; [| discriminate].
  destruct (np.getitem2 (UY (fst cell)) i j) as [uy |]; [| discriminate].
  destruct (np.getitem2 (UZ (fst cell)) i j) as [uz |]; [| discriminate].
  simpl in Hfield. inversion Hfield; subst. auto.
Qed.

End GridClaims.

(** C2 on the reference fault and grid, with the solver that returns the
    slip vector. *)
Lemma C2_stored_components_witness :
  np.getitem2 (UX (fst (cell16 unit echo_solver (2 / 3)
                          reference_fault origin_centroid reference_grid))) 0 0
    = Some (ss reference_fault * sin (math.radians (strike reference_fault))
            - ds reference_fault * cos (math.radians (strike reference_fault))) /\
  np.getitem2 (UY (fst (cell16 unit echo_solver (2 / 3)
                          reference_fault origin_centroid reference_grid))) 0 0
    = Some (ss reference_fault * cos (math.radians (strike reference_fault))
            - ds reference_fault * sin (math.radians (strike reference_fault))) /\
  np.getitem2 (UZ (fst (cell16 unit echo_solver (2 / 3)
                          reference_fault origin_centroid reference_grid))) 0 0
    = Some 0.
Proof.
  apply (C2_stored_components echo_solver (2 / 3) reference_fault
           origin_centroid reference_grid 0 0 0%Z
           (ss reference_fault) (ds reference_fault) 0 tt).
  - destruct (cell16_completes echo_solver (2 / 3)
                reference_fault origin_centroid reference_grid
                (fun i j _ _ => eq_refl)) as (s' & Hrun & _).
    rewrite Hrun. reflexivity.
  - simpl. lia.
  - simpl. lia.
  - reflexivity.
Defined.

(** C9 on the reference fault with its slip set to 0, at the last cell of
    the reference grid. *)
Lemma C9_zero_slip_zero_field_witness :
  ss (with_slip 0 reference_fault) = 0 /\
  ds (with_slip 0 reference_fault) = 0 /\
  np.getitem2 (UX (fst (cell16 unit echo_solver (2 / 3)
                          (with_slip 0 reference_fault) origin_centroid
                          reference_grid))) 100 100 = Some 0 /\
  np.getitem2 (UY (fst (cell16 unit echo_solver (2 / 3)
                          (with_slip 0 reference_fault) origin_centroid
                          reference_grid))) 100 100 = Some 0 /\
  np.getitem2 (UZ (fst (cell16 unit echo_solver (2 / 3)
                          (with_slip 0 reference_fault) origin_centroid
                          reference_grid))) 100 100 = Some 0.
Proof.
  apply (C9_zero_slip_zero_field echo_solver (2 / 3)
           (with_slip 0 reference_fault) origin_centroid reference_grid 100 100).
  - reflexivity.
  - intros a xo depth dip_ al aw. reflexivity.
  - simpl. lia.
  - simpl. lia.
Defined.

(** ** Geometry normalisation: cells 10 and 12 *)

(** Cell 10 returns when the tangent of the dip is not zero, and raises
    otherwise. *)
Lemma centroid_defined (p : FaultParameters) :
  math.tan (math.radians (dip p)) <> 0 ->
  centroid p = inr (centroid_value p).
Proof.
  intros Hne. unfold centroid, truediv.
  destruct (Req_dec_T (math.tan (math.radians (dip p))) 0) as [Heq | _].
  - contradiction.
  - reflexivity.
Qed.

Lemma centroid_undefined (p : FaultParameters) :
  math.tan (math.radians (dip p)) = 0 ->
  centroid p = inl ZeroDivisionError.
Proof.
  intros Heq. unfold centroid, truediv.
  destruct (Req_dec_T (math.tan (math.radians (dip p))) 0) as [_ | Hne].
  - reflexivity.
  - contradiction.
Qed.

(** Away from the poles [math.tan] is the tangent. *)
Lemma math_tan_regular (x : R) : cos x <> 0 -> math.tan x = tan x.
Proof.
  intros Hne. unfold math.tan.
  destruct (Req_dec_T (cos x) 0) as [Heq | _]; [contradiction | reflexivity].
Qed.

Lemma math_tan_pole (x : R) : cos x = 0 -> math.tan x = math.tan_at_pole.
Proof.
  intros Heq. unfold math.tan.
  destruct (Req_dec_T (cos x) 0) as [_ | Hne]; [reflexivity | contradiction].
Qed.

(** For a dip strictly between 0 and 90 degrees the tangent is defined and
    positive. *)
Lemma math_tan_acute (d : R) :
  0 < d < 90 ->
  math.tan (math.radians d) = tan (math.radians d) /\
  0 < tan (math.radians d).
Proof.
  intros Hd. destruct (radians_acute d Hd) as [Hlo Hhi]. split.
  - apply math_tan_regular.
    pose proof (cos_gt_0 (math.radians d)) as Hcos.
    assert (0 < cos (math.radians d)) by (apply Hcos; lra). lra.
  - apply tan_gt_0; assumption.
Qed.

Lemma math_tan_0 : math.tan (math.radians 0) = 0.
Proof.
  rewrite radians_0, math_tan_regular.
  - apply tan_0.
  - rewrite cos_0. lra.
Qed.

Lemma math_tan_90 : math.tan (math.radians 90) = math.tan_at_pole.
Proof. rewrite radians_90. apply math_tan_pole. apply cos_PI2. Qed.

Lemma tan_at_pole_pos : 0 < math.tan_at_pole.
Proof. unfold math.tan_at_pole. lra. Qed.

(** C6: for a dip strictly between 0 and 90 degrees cell 10 returns, with
    [rc = cd_depth / tan(dip)], [rcx = rc * sin(strike + 90)],
    [rcy = rc * cos(strike + 90)] and the centroid at the reference point
    plus [(rcx, rcy)]; and cell 12 sets [ss = slip * cos(rake)] and
    [ds = slip * sin(rake)]. *)
Theorem C6_geometry_normalisation (p : FaultParameters) :
  0 < dip p < 90 ->
  exists c,
    centroid p = inr c /\
    tan (math.radians (dip p)) <> 0 /\
    rc c = cd_depth p / tan (math.radians (dip p)) /\
    rcx c = rc c * sin (math.radians (strike p + 90)) /\
    rcy c = rc c * cos (math.radians (strike p + 90)) /\
    xc c = xs p + rcx c /\
    yc c = ys p + rcy c /\
    ss p = slip p * cos (math.radians (rake p)) /\
    ds p = slip p * sin (math.radians (rake p)).
Proof.
  intros Hdip. destruct (math_tan_acute (dip p) Hdip) as [Htan Hpos].
  exists (centroid_value p). split.
  - apply centroid_defined. rewrite Htan. lra.
  - unfold centroid_value. simpl. rewrite Htan.
    repeat split; try reflexivity. lra.
Qed.

(** C6 on the reference fault, whose dip is 85 degrees. *)
Lemma C6_geometry_normalisation_witness :
  exists c,
    centroid reference_fault = inr c /\
    tan (math.radians 85) <> 0 /\
    rc c = 6000 / tan (math.radians 85) /\
    rcx c = rc c * sin (math.radians (1 + 90)) /\
    rcy c = rc c * cos (math.radians (1 + 90)) /\
    xc c = 0 + rcx c /\
    yc c = 0 + rcy c /\
    ss reference_fault = 2 * cos (math.radians (-1)) /\
    ds reference_fault = 2 * sin (math.radians (-1)).
Proof.
  apply (C6_geometry_normalisation reference_fault). simpl. lra.
Defined.

(** C8, the counterexample: a dip of 90 degrees is not rejected.  The
    tangent evaluates to a huge finite number, cell 10 returns a centroid
    with a tiny offset, and no error is raised. *)
Lemma C8_dip_90_is_accepted :
  dip (with_dip 90 reference_fault) = 90 /\
  ~ (exists e, centroid (with_dip 90 reference_fault) = inl e) /\
  exists c, centroid (with_dip 90 reference_fault) = inr c /\
            rc c = 6000 / 16331239353195370.
Proof.
  assert (H : centroid (with_dip 90 reference_fault)
              = inr (centroid_value (with_dip 90 reference_fault))).
  { apply centroid_defined. simpl. rewrite math_tan_90.
    pose proof tan_at_pole_pos. lra. }
  split; [reflexivity |]. split.
  - intros [e He]. rewrite H in He. discriminate.
  - exists (centroid_value (with_dip 90 reference_fault)).
    split; [exact H |]. unfold centroid_value. simpl.
    rewrite math_tan_90. reflexivity.
Qed.

(** C8, as the notebook has it: for a dip of 0 degrees the division of
    cell 10 raises [ZeroDivisionError], and a run of the notebook ends
    there, before the grid evaluation of cell 16, whatever the solver. *)
Theorem C8_dip_0_fails_fast {grad : Type}
    (dc3dwrapper : R -> vec3 -> R -> R -> R * R -> R * R -> vec3 -> Z * vec3 * grad)
    (lmda mu : R) (p : FaultParameters) (g : Grid) (theta phi : R) :
  lmda + 2 * mu <> 0 ->
  dip p = 0 ->
  centroid p = inl ZeroDivisionError /\
  run_all grad dc3dwrapper lmda mu p g theta phi = FailedAt 10 ZeroDivisionError.
Proof.
  intros Hmat Hdip.
  assert (H : centroid p = inl ZeroDivisionError).
  { apply centroid_undefined. rewrite Hdip. apply math_tan_0. }
  split; [exact H |].
  unfold run_all. rewrite (okada_alpha_defined lmda mu Hmat), H. reflexivity.
Qed.

(** C8 on the reference fault laid flat. *)
Lemma C8_dip_0_fails_fast_witness :
  centroid (with_dip 0 reference_fault) = inl ZeroDivisionError /\
  run_all unit echo_solver reference_lmda reference_mu
    (with_dip 0 reference_fault) reference_grid 39 (-260)
    = FailedAt 10 ZeroDivisionError.
Proof.
  apply (C8_dip_0_fails_fast echo_solver reference_lmda reference_mu
           (with_dip 0 reference_fault) reference_grid 39 (-260)).
  - unfold reference_lmda, reference_mu. lra.
  - reflexivity.
Defined.

(** Cell 10 returns on the reference fault. *)
Lemma centroid_reference :
  centroid reference_fault = inr (centroid_value reference_fault).
Proof.
  apply centroid_defined.
  destruct (math_tan_acute (dip reference_fault)) as [Htan Hpos].
  - simpl. lra.
  - rewrite Htan. lra.
Qed.

(** C4 on the reference run, once with a solver that fails at every point
    and once with one that succeeds at every point. *)
Lemma C4_fail_fast_witness :
  run_all unit refusing_solver reference_lmda reference_mu
    reference_fault reference_grid 39 (-260)
    = FailedAt 16 AssertionError /\
  exists s,
    run_all unit echo_solver reference_lmda reference_mu
      reference_fault reference_grid 39 (-260)
      = Finished (centroid_value reference_fault) s (ULOS s (p_vec 39 (-260))) /\
    store_shape reference_grid s.
Proof.
  split.
  - destruct (proj1 (C4_fail_fast refusing_solver (2 / 3) reference_fault
                       (centroid_value reference_fault) reference_grid
                       reference_lmda reference_mu 39 (-260)
                       okada_alpha_reference centroid_reference))
      as (l1 & k & l2 & _ & _ & _ & _ & _ & _ & Hrun).
    + exists 0%nat, 0%nat. simpl. repeat split; lia.
    + exact Hrun.
  - destruct (proj2 (C4_fail_fast echo_solver (2 / 3) reference_fault
                       (centroid_value reference_fault) reference_grid
                       reference_lmda reference_mu 39 (-260)
                       okada_alpha_reference centroid_reference))
      as (_ & Hsh & _ & Hrun).
    + intros i j _ _. reflexivity.
    + eexists. split; [exact Hrun | exact Hsh].
Defined.

(** ** Line-of-sight projection: cell 21 *)

Lemma getitem2_Some (a : np.ndarray2) (i j : nat) (v : R) :
  np.getitem2 a i j = Some v ->
  exists row, a !! i = Some row /\ row !! j = Some v.
Proof.
  unfold np.getitem2. destruct (a !! i) as [row |]; simpl; [| discriminate].
  intros H. exists row. auto.
Qed.

Lemma getitem2_multiply (a : np.ndarray2) (k : R) (i j : nat) (v : R) :
  np.getitem2 a i j = Some v ->
  np.getitem2 (np.multiply a k) i j = Some (v * k).
Proof.
  intros H. destruct (getitem2_Some a i j v H) as (row & Hrow & Hv).
  unfold np.getitem2, np.multiply.
  rewrite list_lookup_fmap, Hrow. simpl.
  rewrite list_lookup_fmap, Hv. reflexivity.
Qed.

Lemma getitem2_add (a b : np.ndarray2) (i j : nat) (v w : R) :
  np.getitem2 a i j = Some v -> np.getitem2 b i j = Some w ->
  np.getitem2 (np.add a b) i j = Some (v + w).
Proof.
  intros Ha Hb.
  destruct (getitem2_Some a i j v Ha) as (ra & Hra & Hv).
  destruct (getitem2_Some b i j w Hb) as (rb & Hrb & Hw).
  unfold np.getitem2, np.add.
  rewrite lookup_zip_with, Hra, Hrb. simpl.
  rewrite lookup_zip_with, Hv, Hw. reflexivity.
Qed.

Lemma field_at_Some (s : store) (i j : nat) (ux uy uz : R) :
  field_at s i j = Some (ux, uy, uz) ->
  np.getitem2 (UX s) i j = Some ux /\
  np.getitem2 (UY s) i j = Some uy /\
  np.getitem2 (UZ s) i j = Some uz.
Proof.
  unfold field_at.
  destruct (np.getitem2 (UX s) i j) as [vx |]; [| discriminate].
  destruct (np.getitem2 (UY s) i j) as [vy |]; [| discriminate].
  destruct (np.getitem2 (UZ s) i j) as [vz |]; [| discriminate].
  simpl. intros H. inversion H; subst. auto.
Qed.

(** C3: at every cell of the displacement field the line-of-sight array
    holds [UX*px + UY*py + UZ*pz]; so a field that is (1, 0, 0) at every
    cell gives [px] at every cell. *)
Theorem C3_line_of_sight_dot_product (s : store) (pv : vec3) :
  (forall i j ux uy uz,
      field_at s i j = Some (ux, uy, uz) ->
      np.getitem2 (ULOS s pv) i j = Some (ux * px pv + uy * py pv + uz * pz pv)) /\
  (forall i j,
      field_at s i j = Some (1, 0, 0) ->
      np.getitem2 (ULOS s pv) i j = Some (px pv)).
Proof.
  assert (Hdot : forall i j ux uy uz,
             field_at s i j = Some (ux, uy, uz) ->
             np.getitem2 (ULOS s pv) i j
             = Some (ux * px pv + uy * py pv + uz * pz pv)).
  { intros i j ux uy uz Hat.
    destruct (field_at_Some s i j ux uy uz Hat) as (Hx & Hy & Hz).
    unfold ULOS, ULOS_X, ULOS_Y, ULOS_Z.
    apply getitem2_add; [apply getitem2_add |];
      apply getitem2_multiply; assumption. }
  split; [exact Hdot |].
  intros i j Hat. rewrite (Hdot i j 1 0 0 Hat). f_equal. lra.
Qed.

(** C3 on a field of one row and two cells, with the pointing vector of
    cell 18. *)
Lemma C3_line_of_sight_dot_product_witness :
  np.getitem2 (ULOS (Store [[1; 2]] [[0; 3]] [[0; 4]]) (p_vec 39 (-260))) 0 1
    = Some (2 * px (p_vec 39 (-260)) + 3 * py (p_vec 39 (-260))
            + 4 * pz (p_vec 39 (-260))) /\
  np.getitem2 (ULOS (Store [[1; 2]] [[0; 3]] [[0; 4]]) (p_vec 39 (-260))) 0 0
    = Some (px (p_vec 39 (-260))).
Proof.
  split.
  - apply (proj1 (C3_line_of_sight_dot_product
                    (Store [[1; 2]] [[0; 3]] [[0; 4]]) (p_vec 39 (-260)))).
    reflexivity.
  - apply (proj2 (C3_line_of_sight_dot_product
                    (Store [[1; 2]] [[0; 3]] [[0; 4]]) (p_vec 39 (-260)))).
    reflexivity.
Defined.

(** ** The reference run: numbers *)

Lemma PI_bounds : 3.141592 < PI < 3.141593.
Proof.
  pose proof (PI_2_3_7_ineq 3) as [Hlo Hhi].
  unfold sum_f_R0, tg_alt, PI_2_3_7_tg, Ratan_seq in Hlo, Hhi.
  simpl in Hlo, Hhi.
  split; lra.
Qed.

(** The first terms of the sine and cosine series bound them near 0. *)
Lemma sin_small (x : R) :
  0 <= x <= 4 -> x - x ^ 3 / 6 <= sin x <= x - x ^ 3 / 6 + x ^ 5 / 120.
Proof.
  intros [Hlo Hhi].
  pose proof (pre_sin_bound x 0 Hlo Hhi) as H.
  unfold sin_approx, sum_f_R0, sin_term in H. simpl in H. lra.
Qed.

Lemma cos_small (x : R) :
  -2 <= x <= 2 -> 1 - x ^ 2 / 2 <= cos x <= 1 - x ^ 2 / 2 + x ^ 4 / 24.
Proof.
  intros [Hlo Hhi].
  pose proof (pre_cos_bound x 0 Hlo Hhi) as H.
  unfold cos_approx, sum_f_R0, cos_term in H. simpl in H. lra.
Qed.

Lemma pow_between (a x b : R) (n : nat) :
  a <= x <= b -> 0 <= a -> a ^ n <= x ^ n <= b ^ n.
Proof.
  intros [Hax Hxb] Ha. split; apply pow_incr; lra.
Qed.

Lemma radians_1_bounds : 0.017453288 <= math.radians 1 <= 0.017453295.
Proof. unfold math.radians. pose proof PI_bounds. lra. Qed.

Lemma radians_5_bounds : 0.08726644 <= math.radians 5 <= 0.08726648.
Proof. unfold math.radians. pose proof PI_bounds. lra. Qed.

Lemma sin_1_degree : 0.0174524 <= sin (math.radians 1) <= 0.0174525.
Proof.
  pose proof radians_1_bounds as Hx.
  pose proof (sin_small (math.radians 1)) as Hs.
  pose proof (pow_between _ _ _ 3 Hx ltac:(lra)) as H3.
  pose proof (pow_between _ _ _ 5 Hx ltac:(lra)) as H5.
  lra.
Qed.

Lemma cos_1_degree : 0.9998476 <= cos (math.radians 1) <= 0.9998477.
Proof.
  pose proof radians_1_bounds as Hx.
  pose proof (cos_small (math.radians 1)) as Hc.
  pose proof (pow_between _ _ _ 2 Hx ltac:(lra)) as H2.
  pose proof (pow_between _ _ _ 4 Hx ltac:(lra)) as H4.
  lra.
Qed.

Lemma sin_5_degrees : 0.0871556 <= sin (math.radians 5) <= 0.0871558.
Proof.
  pose proof radians_5_bounds as Hx.
  pose proof (sin_small (math.radians 5)) as Hs.
  pose proof (pow_between _ _ _ 3 Hx ltac:(lra)) as H3.
  pose proof (pow_between _ _ _ 5 Hx ltac:(lra)) as H5.
  lra.
Qed.

Lemma cos_5_degrees : 0.9961922 <= cos (math.radians 5) <= 0.9961948.
Proof.
  pose proof radians_5_bounds as Hx.
  pose proof (cos_small (math.radians 5)) as Hc.
  pose proof (pow_between _ _ _ 2 Hx ltac:(lra)) as H2.
  pose proof (pow_between _ _ _ 4 Hx ltac:(lra)) as H4.
  lra.
Qed.

(** The angles of the reference run, brought back to 1 and 5 degrees. *)
Lemma tan_85_degrees :
  math.tan (math.radians 85) = cos (math.radians 5) / sin (math.radians 5).
Proof.
  destruct (math_tan_acute 85) as [Htan _]; [lra |].
  rewrite Htan.
  replace (math.radians 85) with (PI / 2 - math.radians 5)
    by (unfold math.radians; lra).
  unfold tan. rewrite sin_shift, cos_shift. reflexivity.
Qed.

Lemma sin_91_degrees : sin (math.radians (1 + 90)) = cos (math.radians 1).
Proof.
  rewrite radians_plus, radians_90, Rplus_comm. symmetry. apply cos_sin.
Qed.

Lemma cos_91_degrees : cos (math.radians (1 + 90)) = - sin (math.radians 1).
Proof.
  rewrite radians_plus, radians_90, Rplus_comm.
  rewrite (sin_cos (math.radians 1)). lra.
Qed.

(** The radial distance [rc] of the reference run. *)
Lemma rc_reference :
  524.931 <= 6000 / math.tan (math.radians 85) <= 524.934.
Proof.
  rewrite tan_85_degrees.
  pose proof sin_5_degrees as HS. pose proof cos_5_degrees as HC.
  set (S5 := sin (math.radians 5)) in *. set (C5 := cos (math.radians 5)) in *.
  replace (6000 / (C5 / S5)) with (6000 * S5 / C5) by (field; lra).
  split; apply Rmult_le_reg_r with C5; try lra;
    unfold Rdiv; rewrite Rmult_assoc, Rinv_l by lra; lra.
Qed.

(** The centroid and the slip components of the reference run, between
    rational bounds. *)
Lemma reference_geometry_bounds :
  524.851 <= xc (centroid_value reference_fault) <= 524.8541 /\
  -9.1615 <= yc (centroid_value reference_fault) <= -9.1613 /\
  1.9996952 <= ss reference_fault <= 1.9996954 /\
  -0.034905 <= ds reference_fault <= -0.0349048.
Proof.
  unfold centroid_value, ss, ds. simpl.
  replace (math.radians (-1)) with (- math.radians 1)
    by (unfold math.radians; lra).
  rewrite sin_91_degrees, cos_91_degrees, cos_neg, sin_neg.
  pose proof rc_reference as Hrc.
  pose proof sin_1_degree as HS. pose proof cos_1_degree as HC.
  set (r := 6000 / math.tan (math.radians 85)) in *.
  set (S1 := sin (math.radians 1)) in *. set (C1 := cos (math.radians 1)) in *.
  repeat split; nra.
Qed.

(** C5, the counterexample: the centroid of the reference run is not near
    (-524.94, 9.16): its x coordinate is positive and its y coordinate
    negative, so each is more than 1 away from the quoted value. *)
Lemma C5_quoted_centroid_is_off :
  ~ (exists c,
        centroid reference_fault = inr c /\
        Rabs (xc c - (-524.94)) <= 1 /\
        Rabs (yc c - 9.16) <= 1).
Proof.
  intros (c & Hc & Hx & Hy).
  rewrite centroid_reference in Hc. inversion Hc; subst c.
  destruct reference_geometry_bounds as (Hxc & _).
  pose proof (Rle_abs (xc (centroid_value reference_fault) - -524.94)) as Habs.
  lra.
Qed.

(** C5, as the notebook has it: for the reference inputs the geometry stage
    gives a centroid that rounds to (524.85, -9.16, 6000), a strike-slip
    that rounds to 1.9997 and a dip-slip that rounds to -0.0349. *)
Theorem C5_reference_geometry :
  exists c,
    centroid reference_fault = inr c /\
    Rabs (xc c - 524.85) <= 0.005 /\
    Rabs (yc c - (-9.16)) <= 0.005 /\
    cd_depth reference_fault = 6000 /\
    Rabs (ss reference_fault - 1.9997) <= 0.00005 /\
    Rabs (ds reference_fault - (-0.0349)) <= 0.00005.
Proof.
  exists (centroid_value reference_fault).
  destruct reference_geometry_bounds as (Hxc & Hyc & Hss & Hds).
  split; [exact centroid_reference |].
  repeat split; try reflexivity; apply Rabs_le; lra.
Qed.

(** The round trip of the two frame changes at the strike of the reference
    run: the unit north vector comes back shortened by more than 6e-4. *)
Lemma round_trip_at_reference_strike :
  to_map 1 (to_okada 1 (0, 1)) = (0, cos (2 * math.radians 1)) /\
  cos (2 * math.radians 1) <= 0.9994.
Proof.
  split.
  - rewrite to_map_to_okada. f_equal; lra.
  - pose proof radians_1_bounds as Hx.
    assert (Hx2 : 0.034906576 <= 2 * math.radians 1 <= 0.03490659) by lra.
    pose proof (cos_small (2 * math.radians 1)) as Hc.
    pose proof (pow_between _ _ _ 2 Hx2 ltac:(lra)) as H2.
    pose proof (pow_between _ _ _ 4 Hx2 ltac:(lra)) as H4.
    lra.
Qed.

(** ** Partial results after a failure *)

Lemma x_at_0 (g : Grid) : x_at g 0 = lo g.
Proof. unfold x_at. simpl. rewrite Rmult_0_l. lra. Qed.

Lemma y_at_0 (g : Grid) : y_at g 0 = lo g.
Proof. unfold y_at. simpl. rewrite Rmult_0_l. lra. Qed.

(** On the grid of two cells around the origin, with the reference strike,
    [near_solver] succeeds at the first point and fails at the second. *)
Lemma near_solver_first (alpha : R) :
  okada_ij unit near_solver alpha reference_fault origin_centroid
    two_cell_grid 0 0 = (0%Z, (1, 2, 3), tt).
Proof.
  unfold okada_ij, okada_at. rewrite x_at_0, y_at_0.
  unfold near_solver, Q_of, np.dot. simpl.
  destruct (Req_dec_T _ 0) as [_ | Hne]; [reflexivity |].
  exfalso. apply Hne. lra.
Qed.

Lemma near_solver_second (alpha : R) :
  okada_ij unit near_solver alpha reference_fault origin_centroid
    two_cell_grid 0 1 = (1%Z, (0, 0, 0), tt).
Proof.
  unfold okada_ij, okada_at. rewrite x_at_0.
  unfold near_solver, Q_of. rewrite R_strike_rows.
  unfold np.dot, y_at. simpl.
  destruct (Req_dec_T _ 0) as [Heq | _]; [| reflexivity].
  exfalso. pose proof cos_1_degree as Hcos. lra.
Qed.

(** Cell 16 on that grid: it raises at the second point, with the first
    cell written. *)
Lemma two_cell_run (alpha : R) :
  exists s',
    cell16 unit near_solver alpha reference_fault origin_centroid two_cell_grid
    = (s', inl AssertionError) /\
    field_at s' 0 0 = Some (UX_of 1 1 2, UY_of 1 1 2, 3) /\
    field_at s' 0 1 = Some (0, 0, 0).
Proof.
  assert (Hin : in_grid two_cell_grid ([(0, 0)%nat] ++ (0, 1)%nat :: [])).
  { apply (in_grid_points two_cell_grid). }
  destruct (for_points_abort near_solver alpha reference_fault origin_centroid
              two_cell_grid [(0, 0)%nat] [] (0, 1)%nat
              (zero_store two_cell_grid)
              (store_shape_zero_store two_cell_grid) Hin)
    as (s' & Hrun & _ & Hat & Hoth).
  { repeat constructor. unfold succeeds. simpl.
    rewrite near_solver_first. reflexivity. }
  { unfold succeeds. simpl. rewrite near_solver_second. reflexivity. }
  exists s'. unfold cell16. rewrite grid_loops_points.
  split; [exact Hrun |]. split.
  - rewrite (Hat 0%nat 0%nat) by (apply list_elem_of_singleton; reflexivity).
    unfold stored_ij. rewrite near_solver_first. reflexivity.
  - rewrite (Hoth 0%nat 1%nat).
    + apply field_at_zero_store; simpl; lia.
    + intros H. apply list_elem_of_singleton in H. discriminate.
Qed.

(** C4, the counterexample: on a failure the arrays are not left without
    partial results.  With a solver that succeeds at the first of two grid
    points and fails at the second, cell 16 raises [AssertionError] and the
    array [UZ] holds the 3 written for the first point. *)
Lemma C4_partial_results_remain :
  snd (cell16 unit near_solver (2 / 3) reference_fault origin_centroid
         two_cell_grid) = inl AssertionError /\
  np.getitem2 (UZ (fst (cell16 unit near_solver (2 / 3) reference_fault
                          origin_centroid two_cell_grid))) 0 0 = Some 3 /\
  fst (cell16 unit near_solver (2 / 3) reference_fault origin_centroid
         two_cell_grid) <> zero_store two_cell_grid.
Proof.
  destruct (two_cell_run (2 / 3)) as (s' & Hrun & Hat & _).
  rewrite Hrun. simpl.
  destruct (field_at_Some s' 0 0 _ _ _ Hat) as (_ & _ & Hz).
  split; [reflexivity |]. split; [exact Hz |].
  intros Heq. rewrite Heq in Hz. simpl in Hz.
  rewrite getitem2_zeros in Hz by lia. inversion Hz. lra.
Qed.

(** * Further properties of the notebook *)

(** ** The sample grid: [np.linspace] *)

Lemma length_linspace (a b : R) (num : nat) :
  length (np.linspace a b num) = num.
Proof. unfold np.linspace. rewrite length_fmap. apply length_seq. Qed.

Lemma INR_pred_pos (num : nat) : (2 <= num)%nat -> 0 < INR (num - 1).
Proof. intros H. apply lt_0_INR. lia. Qed.

(** X1: [linspace(a, b, num)] with at least two samples has [num] entries,
    starts at [a], ends at [b], takes equal steps of [(b - a) / (num - 1)],
    and has no entry at an index from [num] on. *)
Theorem linspace_samples (a b : R) (num : nat) :
  (2 <= num)%nat ->
  length (np.linspace a b num) = num /\
  np.linspace a b num !! 0%nat = Some a /\
  np.linspace a b num !! (num - 1)%nat = Some b /\
  (forall i, (S i < num)%nat ->
     exists u v, np.linspace a b num !! i = Some u /\
                 np.linspace a b num !! S i = Some v /\
                 v - u = (b - a) / INR (num - 1)) /\
  (forall i, (num <= i)%nat -> np.linspace a b num !! i = None).
Proof.
  intros Hnum. pose proof (INR_pred_pos num Hnum) as Hpos.
  split; [apply length_linspace |]. split; [| split; [| split]].
  - rewrite lookup_linspace by lia. f_equal. simpl. lra.
  - rewrite lookup_linspace by lia. f_equal. field. lra.
  - intros i Hi. eexists. eexists.
    split; [apply lookup_linspace; lia |].
    split; [apply lookup_linspace; lia |].
    rewrite S_INR. lra.
  - intros i Hi. apply lookup_ge_None. rewrite length_linspace. exact Hi.
Qed.

(** X1 on the [x] axis of the reference grid. *)
Lemma linspace_samples_witness :
  length (np.linspace (-25000) 25000 101) = 101%nat /\
  np.linspace (-25000) 25000 101 !! 0%nat = Some (-25000) /\
  np.linspace (-25000) 25000 101 !! (101 - 1)%nat = Some 25000 /\
  (forall i, (S i < 101)%nat ->
     exists u v, np.linspace (-25000) 25000 101 !! i = Some u /\
                 np.linspace (-25000) 25000 101 !! S i = Some v /\
                 v - u = (25000 - -25000) / INR (101 - 1)) /\
  (forall i, (101 <= i)%nat -> np.linspace (-25000) 25000 101 !! i = None).
Proof.
  apply (linspace_samples (-25000) 25000 101). lia.
Defined.

(** X2: the samples of [linspace(a, b, num)] increase strictly when
    [a < b]. *)
Theorem linspace_increasing (a b : R) (num i j : nat) (u v : R) :
  a < b -> (i < j)%nat ->
  np.linspace a b num !! i = Some u ->
  np.linspace a b num !! j = Some v ->
  u < v.
Proof.
  intros Hab Hij Hu Hv.
  assert (Hj : (j < num)%nat).
  { apply lookup_lt_Some in Hv. rewrite length_linspace in Hv. exact Hv. }
  rewrite lookup_linspace in Hu by lia. rewrite lookup_linspace in Hv by lia.
  inversion Hu; inversion Hv; subst.
  assert (Hpos : 0 < INR (num - 1)) by (apply INR_pred_pos; lia).
  assert (Hstep : 0 < (b - a) / INR (num - 1)).
  { apply Rdiv_lt_0_compat; lra. }
  assert (Hlt : INR i < INR j) by (apply lt_INR; exact Hij).
  nra.
Qed.

(** X2 on the first two contour levels of the plots,
    [linspace(-0.5, 0.5, 21)]. *)
Lemma linspace_increasing_witness : -0.5 + INR 0 * ((0.5 - -0.5) / INR (21 - 1))
                                    < -0.5 + INR 1 * ((0.5 - -0.5) / INR (21 - 1)).
Proof.
  apply (linspace_increasing (-0.5) 0.5 21 0 1).
  - lra.
  - lia.
  - reflexivity.
  - reflexivity.
Defined.

(** ** The elastic constant of cell 6 *)

(** X3: for positive Lame parameters cell 6 returns, and the constant lies
    strictly between 1/2 and 1. *)
Theorem okada_alpha_range (lmda mu : R) :
  0 < lmda -> 0 < mu ->
  exists alpha, okada_alpha lmda mu = inr alpha /\ 1 / 2 < alpha < 1.
Proof.
  intros Hl Hm. exists ((lmda + mu) / (lmda + 2 * mu)).
  split; [apply okada_alpha_defined; lra |].
  assert (H : (lmda + mu) / (lmda + 2 * mu) * (lmda + 2 * mu) = lmda + mu)
    by (field; lra).
  set (alpha := (lmda + mu) / (lmda + 2 * mu)) in *.
  split; nra.
Qed.

(** X3 on the constants of the notebook. *)
Lemma okada_alpha_range_witness :
  exists alpha,
    okada_alpha reference_lmda reference_mu = inr alpha /\ 1 / 2 < alpha < 1.
Proof.
  apply (okada_alpha_range reference_lmda reference_mu);
    unfold reference_lmda, reference_mu; lra.
Defined.

(** ** Geometry normalisation, further *)

Lemma sin_radians_plus_90 (s : R) :
  sin (math.radians (s + 90)) = cos (math.radians s).
Proof.
  rewrite radians_plus, radians_90, Rplus_comm. symmetry. apply cos_sin.
Qed.

Lemma cos_radians_plus_90 (s : R) :
  cos (math.radians (s + 90)) = - sin (math.radians s).
Proof.
  rewrite radians_plus, radians_90, Rplus_comm.
  rewrite (sin_cos (math.radians s)). lra.
Qed.

(** What cell 10 returns, it returns as [centroid_value]. *)
Lemma centroid_inr (p : FaultParameters) (c : Centroid) :
  centroid p = inr c ->
  c = centroid_value p /\ math.tan (math.radians (dip p)) <> 0.
Proof.
  unfold centroid, truediv.
  destruct (Req_dec_T (math.tan (math.radians (dip p))) 0) as [Heq | Hne];
    simpl; intros H; [discriminate |].
  inversion H. split; [reflexivity | exact Hne].
Qed.

(** X4: the strike-slip and dip-slip components of cell 12 have the
    magnitude of the slip. *)
Theorem slip_decomposition_magnitude (p : FaultParameters) :
  ss p ^ 2 + ds p ^ 2 = slip p ^ 2.
Proof.
  unfold ss, ds.
  pose proof (sin2_cos2_mul (math.radians (rake p))) as H.
  scale_unit H (slip p * slip p). lra.
Qed.

(** X5: the centroid of cell 10 lies at the distance [|rc|] from the
    reference point, in the direction at right angles to the strike:
    [rcx = rc * cos(strike)], [rcy = - rc * sin(strike)]. *)
Theorem centroid_offset_direction (p : FaultParameters) (c : Centroid) :
  centroid p = inr c ->
  rcx c = rc c * cos (math.radians (strike p)) /\
  rcy c = - (rc c * sin (math.radians (strike p))) /\
  (xc c - xs p) ^ 2 + (yc c - ys p) ^ 2 = rc c ^ 2.
Proof.
  intros Hc. destruct (centroid_inr p c Hc) as [-> _].
  unfold centroid_value. simpl.
  rewrite sin_radians_plus_90, cos_radians_plus_90.
  pose proof (sin2_cos2_mul (math.radians (strike p))) as H.
  set (r := cd_depth p / math.tan (math.radians (dip p))).
  scale_unit H (r * r).
  repeat split; lra.
Qed.

(** X5 on the reference fault. *)
Lemma centroid_offset_direction_witness :
  rcx (centroid_value reference_fault)
    = rc (centroid_value reference_fault) * cos (math.radians 1) /\
  rcy (centroid_value reference_fault)
    = - (rc (centroid_value reference_fault) * sin (math.radians 1)) /\
  (xc (centroid_value reference_fault) - 0) ^ 2
    + (yc (centroid_value reference_fault) - 0) ^ 2
    = rc (centroid_value reference_fault) ^ 2.
Proof.
  apply (centroid_offset_direction reference_fault
           (centroid_value reference_fault)).
  exact centroid_reference.
Defined.

(** X6: for a positive centroid depth and dips between 0 and 90 degrees,
    the radial distance [rc] is positive, and a steeper fault has its
    centroid closer to the reference point. *)
Theorem centroid_closer_when_steeper (p : FaultParameters) (d1 d2 : R) :
  0 < cd_depth p -> 0 < d1 -> d1 < d2 -> d2 < 90 ->
  exists c1 c2,
    centroid (with_dip d1 p) = inr c1 /\
    centroid (with_dip d2 p) = inr c2 /\
    0 < rc c2 /\ rc c2 < rc c1.
Proof.
  intros Hdepth H1 H12 H2.
  destruct (math_tan_acute d1) as [Ht1 Hp1]; [lra |].
  destruct (math_tan_acute d2) as [Ht2 Hp2]; [lra |].
  destruct (radians_acute d1) as [Hr1 Hr1']; [lra |].
  destruct (radians_acute d2) as [Hr2 Hr2']; [lra |].
  assert (Hinc : tan (math.radians d1) < tan (math.radians d2)).
  { apply tan_increasing; try lra.
    unfold math.radians. pose proof PI_RGT_0. nra. }
  exists (centroid_value (with_dip d1 p)), (centroid_value (with_dip d2 p)).
  split; [apply centroid_defined; simpl; lra |].
  split; [apply centroid_defined; simpl; lra |].
  unfold centroid_value. simpl. rewrite Ht1, Ht2.
  split.
  - apply Rdiv_lt_0_compat; assumption.
  - unfold Rdiv. apply Rmult_lt_compat_l; [exact Hdepth |].
    apply Rinv_lt_contravar; [| exact Hinc].
    apply Rmult_lt_0_compat; assumption.
Qed.

(** X6 on the reference fault, at dips of 45 and 85 degrees. *)
Lemma centroid_closer_when_steeper_witness :
  exists c1 c2,
    centroid (with_dip 45 reference_fault) = inr c1 /\
    centroid (with_dip 85 reference_fault) = inr c2 /\
    0 < rc c2 /\ rc c2 < rc c1.
Proof.
  apply (centroid_closer_when_steeper reference_fault 45 85); simpl; lra.
Defined.

(** ** The frame changes of cell 16, further *)

(** X7: the rotation into Okada geometry keeps the distance of an
    observation point to the centroid, and sends the centroid to the
    origin. *)
Theorem Q_of_keeps_distance (p : FaultParameters) (c : Centroid) (x y : R) :
  fst (Q_of p c x y) ^ 2 + snd (Q_of p c x y) ^ 2
    = (x - xc c) ^ 2 + (y - yc c) ^ 2 /\
  Q_of p c (xc c) (yc c) = (0, 0).
Proof.
  unfold Q_of. rewrite R_strike_rows. unfold np.dot. simpl.
  pose proof (sin2_cos2_mul (math.radians (strike p))) as H.
  split.
  - scale_unit H ((x - xc c) * (x - xc c)).
    scale_unit H ((y - yc c) * (y - yc c)). lra.
  - f_equal; lra.
Qed.

(** X8: the reference point [(xs, ys)], the centre of the up-dip
    projection of the fault, has the Okada coordinates [(0, rc)]: it lies on
    the strike-normal axis, at the radial distance from the centroid. *)
Theorem reference_point_in_okada_geometry (p : FaultParameters) (c : Centroid) :
  centroid p = inr c ->
  Q_of p c (xs p) (ys p) = (0, rc c).
Proof.
  intros Hc. destruct (centroid_inr p c Hc) as [-> _].
  unfold Q_of. rewrite R_strike_rows. unfold np.dot, centroid_value. simpl.
  rewrite sin_radians_plus_90, cos_radians_plus_90.
  pose proof (sin2_cos2_mul (math.radians (strike p))) as H.
  set (r := cd_depth p / math.tan (math.radians (dip p))).
  scale_unit H r. f_equal; lra.
Qed.

(** X8 on the reference fault. *)
Lemma reference_point_in_okada_geometry_witness :
  Q_of reference_fault (centroid_value reference_fault) 0 0
    = (0, rc (centroid_value reference_fault)).
Proof.
  apply (reference_point_in_okada_geometry reference_fault
           (centroid_value reference_fault)).
  exact centroid_reference.
Defined.

(** X9: the projection on the map axes that the loop body writes changes
    the length of the horizontal displacement, by the term
    [2 * u0 * u1 * sin(2 * strike)]. *)
Theorem to_map_length (s u0 u1 : R) :
  fst (to_map s (u0, u1)) ^ 2 + snd (to_map s (u0, u1)) ^ 2
    = u0 ^ 2 + u1 ^ 2 - 2 * u0 * u1 * sin (2 * math.radians s).
Proof.
  unfold to_map, UX_of, UY_of. simpl. rewrite sin_2a.
  pose proof (sin2_cos2_mul (math.radians s)) as H.
  scale_unit H (u0 * u0). scale_unit H (u1 * u1). lra.
Qed.

(** ** The pointing vector, further *)

Lemma p_vec_norm (theta phi : R) :
  px (p_vec theta phi) * px (p_vec theta phi)
  + py (p_vec theta phi) * py (p_vec theta phi)
  + pz (p_vec theta phi) * pz (p_vec theta phi) = 1.
Proof.
  unfold p_vec, px, py, pz. simpl.
  pose proof (sin2_cos2_mul (math.radians phi)) as Hphi.
  pose proof (sin2_cos2_mul (math.radians theta)) as Hth.
  nra.
Qed.

(** X10: the horizontal part of the pointing vector has length
    [|sin(theta)|]; the vector does not change when the azimuth turns by a
    full circle, and its horizontal part changes sign when the azimuth turns
    by half a circle. *)
Theorem p_vec_azimuth (theta phi : R) :
  px (p_vec theta phi) ^ 2 + py (p_vec theta phi) ^ 2
    = sin (math.radians theta) ^ 2 /\
  p_vec theta (phi + 360) = p_vec theta phi /\
  p_vec theta (phi + 180)
    = (- px (p_vec theta phi), - py (p_vec theta phi), pz (p_vec theta phi)).
Proof.
  unfold p_vec, px, py, pz. simpl.
  pose proof (sin2_cos2_mul (math.radians phi)) as Hphi.
  split; [| split].
  - scale_unit Hphi (sin (math.radians theta) * sin (math.radians theta)). lra.
  - replace (math.radians (phi + 360)) with (math.radians phi + 2 * PI)
      by (unfold math.radians; lra).
    rewrite sin_plus, cos_plus, sin_2PI, cos_2PI. repeat f_equal; lra.
  - replace (math.radians (phi + 180)) with (math.radians phi + PI)
      by (unfold math.radians; lra).
    rewrite neg_sin, neg_cos. repeat f_equal; lra.
Qed.

(** ** The loops of cell 16, further *)

Lemma lookup_bind_rows (m n a i j : nat) :
  (i < n)%nat -> (j < m)%nat ->
  (seq a n ≫= (fun k => pair k <$> seq 0 m)) !! (i * m + j)%nat
  = Some ((a + i)%nat, j).
Proof.
  revert a i. induction n as [| n IH]; intros a i Hi Hj; [lia |].
  change (seq a (S n) ≫= (fun k => pair k <$> seq 0 m))
    with ((pair a <$> seq 0 m) ++ (seq (S a) n ≫= (fun k => pair k <$> seq 0 m))).
  destruct i as [| i].
  - rewrite lookup_app_l by (rewrite length_fmap, length_seq; lia).
    rewrite list_lookup_fmap, lookup_seq_lt by lia. simpl.
    do 2 f_equal; lia.
  - rewrite lookup_app_r by (rewrite length_fmap, length_seq; lia).
    rewrite length_fmap, length_seq.
    replace (S i * m + j - m)%nat with (i * m + j)%nat by lia.
    rewrite IH by lia. do 2 f_equal. lia.
Qed.

Lemma length_bind_rows (m n a : nat) :
  length (seq a n ≫= (fun k => pair k <$> seq 0 m)) = (n * m)%nat.
Proof.
  revert a. induction n as [| n IH]; intros a; [reflexivity |].
  change (seq a (S n) ≫= (fun k => pair k <$> seq 0 m))
    with ((pair a <$> seq 0 m) ++ (seq (S a) n ≫= (fun k => pair k <$> seq 0 m))).
  rewrite length_app, length_fmap, length_seq, IH. lia.
Qed.

(** The place of an index pair in the list of visits. *)
Lemma points_lookup (g : Grid) (i j : nat) :
  (i < n0 g)%nat -> (j < n1 g)%nat ->
  points g !! (i * n1 g + j)%nat = Some (i, j).
Proof.
  intros Hi Hj. unfold points, range.
  rewrite lookup_bind_rows by assumption. reflexivity.
Qed.

Lemma points_position (g : Grid) (k i j : nat) :
  points g !! k = Some (i, j) -> k = (i * n1 g + j)%nat.
Proof.
  intros Hlook.
  assert (Hk : (k < n0 g * n1 g)%nat).
  { apply lookup_lt_Some in Hlook. unfold points, range in Hlook.
    rewrite length_bind_rows in Hlook. exact Hlook. }
  assert (Hn1 : (0 < n1 g)%nat) by lia.
  pose proof (Nat.div_mod_eq k (n1 g)) as Hdm.
  assert (Hq : (k / n1 g < n0 g)%nat)
    by (apply Nat.Div0.div_lt_upper_bound; lia).
  assert (Hr : (k mod n1 g < n1 g)%nat) by (apply Nat.mod_upper_bound; lia).
  pose proof (points_lookup g _ _ Hq Hr) as Hat.
  replace (k / n1 g * n1 g + k mod n1 g)%nat with k in Hat by lia.
  rewrite Hlook in Hat. inversion Hat; subst. lia.
Qed.

Section GridEvaluationFurther.

Context {grad : Type}.
Context (dc3dwrapper :
  R -> vec3 -> R -> R -> R * R -> R * R -> vec3 -> Z * vec3 * grad).
Context (alpha : R) (p : FaultParameters) (c : Centroid) (g : Grid).

Local Abbreviation cell := (cell16 grad dc3dwrapper alpha p c g).
Local Abbreviation ok := (succeeds grad dc3dwrapper alpha p c g).

(** X11: the two loops visit the cells row by row, the cell [(i, j)] as
    visit number [i * n1 + j].  If the solver reports a failure at
    [(i0, j0)] and success at every grid point of a smaller number, cell 16
    raises [AssertionError] with the cells of a smaller number written and
    every other cell as allocated. *)
Theorem cell16_stops_in_row_major_order (i0 j0 : nat) :
  (i0 < n0 g)%nat -> (j0 < n1 g)%nat ->
  ok (i0, j0) = false ->
  (forall i j, (i < n0 g)%nat -> (j < n1 g)%nat ->
     (i * n1 g + j < i0 * n1 g + j0)%nat -> ok (i, j) = true) ->
  snd cell = inl AssertionError /\
  forall i j, (i < n0 g)%nat -> (j < n1 g)%nat ->
    field_at (fst cell) i j
    = if decide (i * n1 g + j < i0 * n1 g + j0)%nat
      then Some (stored_ij grad dc3dwrapper alpha p c g i j)
      else Some (0, 0, 0).
Proof.
  intros Hi0 Hj0 Hbad Hbefore.
  set (k := (i0 * n1 g + j0)%nat).
  pose proof (points_lookup g i0 j0 Hi0 Hj0) as Hlook. fold k in Hlook.
  pose proof (take_drop_middle _ _ _ Hlook) as Hsplit.
  assert (Hl1 : forall i j, (i, j) ∈ take k (points g) <->
                  (i < n0 g)%nat /\ (j < n1 g)%nat /\ (i * n1 g + j < k)%nat).
  { intros i j. rewrite elem_of_take. split.
    - intros (idx & Hidx & Hlt).
      pose proof (points_position g idx i j Hidx) as ->.
      assert (Hin : (i, j) ∈ points g)
        by (eapply list_elem_of_lookup_2; exact Hidx).
      apply elem_of_points in Hin. tauto.
    - intros (Hi & Hj & Hlt). exists (i * n1 g + j)%nat.
      split; [apply points_lookup; assumption | exact Hlt]. }
  assert (Hall : Forall (fun k' => ok k' = true) (take k (points g))).
  { apply Forall_forall. intros [i j] Hin. apply Hl1 in Hin.
    destruct Hin as (Hi & Hj & Hlt). apply Hbefore; assumption. }
  assert (Hin : in_grid g (take k (points g) ++ (i0, j0) :: drop (S k) (points g))).
  { rewrite Hsplit. apply in_grid_points. }
  destruct (for_points_abort dc3dwrapper alpha p c g _ _ _ (zero_store g)
              (store_shape_zero_store g) Hin Hall Hbad)
    as (s' & Hrun & _ & Hat & Hoth).
  rewrite Hsplit in Hrun.
  unfold cell16. rewrite grid_loops_points, Hrun. simpl.
  split; [reflexivity |].
  intros i j Hi Hj. destruct (decide (i * n1 g + j < k)%nat) as [Hlt | Hge].
  - apply Hat. apply Hl1. auto.
  - rewrite Hoth; [apply field_at_zero_store; assumption |].
    intros Hin'. apply Hl1 in Hin'. tauto.
Qed.

(** X12: however cell 16 ends, the three arrays have the shape of the
    grid.  It runs to its end exactly when the solver reports success at
    every grid point, raises [AssertionError] exactly when it reports a
    failure at some grid point, and never raises anything else: no index
    is out of range. *)
Theorem cell16_outcomes :
  store_shape g (fst cell) /\
  (snd cell = inr tt <->
   forall i j, (i < n0 g)%nat -> (j < n1 g)%nat -> ok (i, j) = true) /\
  (snd cell = inl AssertionError <->
   exists i j, (i < n0 g)%nat /\ (j < n1 g)%nat /\ ok (i, j) = false) /\
  snd cell <> inl IndexError /\
  snd cell <> inl ZeroDivisionError.
Proof.
  destruct (all_or_some_failure dc3dwrapper alpha p c g) as [Hall | Hbad].
  - destruct (cell16_completes dc3dwrapper alpha p c g Hall)
      as (s' & Hrun & Hsh & _).
    rewrite Hrun. simpl. split; [exact Hsh |].
    split; [tauto |]. split; [| split; discriminate].
    split; [discriminate |].
    intros (i & j & Hi & Hj & Hf). rewrite (Hall i j Hi Hj) in Hf. discriminate.
  - destruct (cell16_aborts dc3dwrapper alpha p c g Hbad)
      as (l1 & k & l2 & s' & _ & _ & _ & Hrun & Hsh & _).
    rewrite Hrun. simpl. split; [exact Hsh |].
    split; [| split; [tauto | split; discriminate]].
    split; [discriminate |].
    intros Hall. destruct Hbad as (i & j & Hi & Hj & Hf).
    rewrite (Hall i j Hi Hj) in Hf. discriminate.
Qed.

(** X13: on a grid with no row or no column cell 16 runs to its end
    without a solver call having to succeed, and leaves the arrays as
    allocated. *)
Theorem cell16_empty_grid :
  n0 g = 0%nat \/ n1 g = 0%nat ->
  cell = (zero_store g, inr tt).
Proof.
  intros Hempty. unfold cell16. rewrite grid_loops_points.
  assert (Hnil : points g = []).
  { apply nil_length_inv. unfold points, range. rewrite length_bind_rows.
    destruct Hempty as [-> | ->]; lia. }
  rewrite Hnil. reflexivity.
Qed.

End GridEvaluationFurther.

(** X13 on a grid without columns, with the solver that fails at every
    point. *)
Lemma cell16_empty_grid_witness :
  cell16 unit refusing_solver (2 / 3) reference_fault origin_centroid
    {| n0 := 3; n1 := 0; lo := -1; hi := 1 |}
  = (zero_store {| n0 := 3; n1 := 0; lo := -1; hi := 1 |}, inr tt).
Proof.
  apply (cell16_empty_grid refusing_solver (2 / 3) reference_fault
           origin_centroid {| n0 := 3; n1 := 0; lo := -1; hi := 1 |}).
  right. reflexivity.
Defined.

Lemma for_ext {A : Type} (l : list A) (b1 b2 : A -> M unit) (s : store) :
  (forall k s', k ∈ l -> b1 k s' = b2 k s') ->
  for_ l b1 s = for_ l b2 s.
Proof.
  revert s. induction l as [| k l IH]; intros s Heq; [reflexivity |].
  cbn [for_]. unfold bind. rewrite (Heq k s) by (apply elem_of_cons; auto).
  destruct (b2 k s) as [s1 [e | []]]; [reflexivity |].
  apply IH. intros k' s' Hin. apply Heq. apply elem_of_cons. auto.
Qed.

(** X14: cell 16 uses the success flag and the displacement of the solver
    at the grid points and nothing else: two solvers that agree on these,
    whatever gradients they return and whatever they do elsewhere, leave
    the same arrays and the same outcome. *)
Theorem cell16_ignores_gradient {grad1 grad2 : Type}
    (solver1 : R -> vec3 -> R -> R -> R * R -> R * R -> vec3 -> Z * vec3 * grad1)
    (solver2 : R -> vec3 -> R -> R -> R * R -> R * R -> vec3 -> Z * vec3 * grad2)
    (alpha : R) (p : FaultParameters) (c : Centroid) (g : Grid) :
  (forall i j, (i < n0 g)%nat -> (j < n1 g)%nat ->
     fst (okada_ij grad1 solver1 alpha p c g i j)
     = fst (okada_ij grad2 solver2 alpha p c g i j)) ->
  cell16 grad1 solver1 alpha p c g = cell16 grad2 solver2 alpha p c g.
Proof.
  intros Hagree. unfold cell16. rewrite !grid_loops_points.
  apply for_ext. intros [i j] s Hin.
  apply elem_of_points in Hin. destruct Hin as [Hi Hj].
  specialize (Hagree i j Hi Hj). unfold okada_ij in Hagree.
  unfold loop_body, bind, getitem, grid_x, grid_y.
  rewrite !lookup_linspace by assumption. unfold ret.
  fold (x_at g i) (y_at g j).
  destruct (okada_at grad1 solver1 alpha p c (x_at g i) (y_at g j))
    as [[f1 u1] g1].
  destruct (okada_at grad2 solver2 alpha p c (x_at g i) (y_at g j))
    as [[f2 u2] g2].
  simpl in Hagree. inversion Hagree; subst. reflexivity.
Qed.

(** X14 on the reference run: a solver that also returns a gradient
    against one that returns none. *)
Lemma cell16_ignores_gradient_witness :
  cell16 R (fun _ _ _ _ _ _ d => (0%Z, d, 1)) (2 / 3) reference_fault
    origin_centroid reference_grid
  = cell16 unit echo_solver (2 / 3) reference_fault origin_centroid
      reference_grid.
Proof.
  apply (cell16_ignores_gradient (fun _ _ _ _ _ _ d => (0%Z, d, 1))
           echo_solver (2 / 3) reference_fault origin_centroid reference_grid).
  intros i j _ _. reflexivity.
Defined.

(** ** The line-of-sight array, further *)

Lemma shape_multiply (a b : nat) (arr : np.ndarray2) (k : R) :
  shape a b arr -> shape a b (np.multiply arr k).
Proof.
  intros [Hlen Hrows]. unfold np.multiply. split.
  - rewrite length_fmap. exact Hlen.
  - apply Forall_fmap. eapply Forall_impl; [exact Hrows |].
    intros row Hrow. simpl. rewrite length_fmap. exact Hrow.
Qed.

Lemma shape_add (a b : nat) (x y : np.ndarray2) :
  shape a b x -> shape a b y -> shape a b (np.add x y).
Proof.
  intros [Hlx Hrx] [Hly Hry]. unfold np.add. split.
  - rewrite length_zip_with. lia.
  - apply Forall_lookup. intros i row Hrow.
    apply lookup_zip_with_Some in Hrow.
    destruct Hrow as (rx & ry & -> & Hx & Hy).
    rewrite Forall_lookup in Hrx, Hry.
    rewrite length_zip_with, (Hrx i rx Hx), (Hry i ry Hy). lia.
Qed.

(** The line-of-sight value at a cell of the displacement arrays. *)
Lemma ULOS_at (s : store) (pv : vec3) (i j : nat) (ux uy uz : R) :
  field_at s i j = Some (ux, uy, uz) ->
  np.getitem2 (ULOS s pv) i j = Some (ux * px pv + uy * py pv + uz * pz pv).
Proof.
  intros Hat.
  destruct (field_at_Some s i j ux uy uz Hat) as (Hx & Hy & Hz).
  unfold ULOS, ULOS_X, ULOS_Y, ULOS_Z.
  apply getitem2_add; [apply getitem2_add |];
    apply getitem2_multiply; assumption.
Qed.

(** With zero slip and a solver that returns no displacement for no slip,
    every iteration stores the zero displacement. *)
Lemma stored_zero_slip {grad : Type}
    (dc3dwrapper : R -> vec3 -> R -> R -> R * R -> R * R -> vec3 -> Z * vec3 * grad)
    (alpha : R) (p : FaultParameters) (c : Centroid) (g : Grid) (i j : nat) :
  slip p = 0 ->
  (forall a xo depth dip_ al aw,
      snd (fst (dc3dwrapper a xo depth dip_ al aw (0, 0, 0))) = (0, 0, 0)) ->
  stored_ij grad dc3dwrapper alpha p c g i j = (0, 0, 0).
Proof.
  intros Hslip Hzero.
  assert (Hss : ss p = 0) by (unfold ss; rewrite Hslip; lra).
  assert (Hds : ds p = 0) by (unfold ds; rewrite Hslip; lra).
  unfold stored_ij, okada_ij, okada_at. rewrite Hss, Hds.
  match goal with
  | |- context [dc3dwrapper ?a ?xo ?d ?dp ?al ?aw (0, 0, 0)] =>
      pose proof (Hzero a xo d dp al aw) as Hu;
      destruct (dc3dwrapper a xo d dp al aw (0, 0, 0)) as [[flag u] gr]
  end.
  simpl in Hu. subst u. unfold UX_of, UY_of. repeat f_equal; lra.
Qed.

(** ** A run of the whole notebook, further *)

Lemma cell16_result_unit {grad : Type}
    (dc3dwrapper : R -> vec3 -> R -> R -> R * R -> R * R -> vec3 -> Z * vec3 * grad)
    (alpha : R) (p : FaultParameters) (c : Centroid) (g : Grid)
    (s : store) (u : unit) :
  cell16 grad dc3dwrapper alpha p c g = (s, inr u) ->
  store_shape g s /\
  forall i j, (i < n0 g)%nat -> (j < n1 g)%nat ->
              field_at s i j = Some (stored_ij grad dc3dwrapper alpha p c g i j).
Proof.
  intros Hrun.
  destruct (all_or_some_failure dc3dwrapper alpha p c g) as [Hall | Hbad].
  - destruct (cell16_completes dc3dwrapper alpha p c g Hall)
      as (s' & Hrun' & Hsh & Hat).
    rewrite Hrun in Hrun'. inversion Hrun'; subst. auto.
  - destruct (cell16_aborts dc3dwrapper alpha p c g Hbad)
      as (l1 & k & l2 & s' & _ & _ & _ & Hrun' & _).
    rewrite Hrun in Hrun'. discriminate.
Qed.

Section NotebookRuns.

Context {grad : Type}.
Context (dc3dwrapper :
  R -> vec3 -> R -> R -> R * R -> R * R -> vec3 -> Z * vec3 * grad).
Context (lmda mu : R) (p : FaultParameters) (g : Grid) (theta phi : R).

Local Abbreviation the_run := (run_all grad dc3dwrapper lmda mu p g theta phi).

Lemma run_all_finished_inv (c : Centroid) (s : store) (los : np.ndarray2) :
  the_run = Finished c s los ->
  exists alpha,
    okada_alpha lmda mu = inr alpha /\
    centroid p = inr c /\
    cell16 grad dc3dwrapper alpha p c g = (s, inr tt) /\
    los = ULOS s (p_vec theta phi).
Proof.
  unfold run_all.
  destruct (okada_alpha lmda mu) as [e | alpha]; [discriminate |].
  destruct (centroid p) as [e | c']; [discriminate |].
  destruct (cell16 grad dc3dwrapper alpha p c' g) as [s' [e | []]] eqn:Hcell;
    [discriminate |].
  intros H. inversion H; subst. exists alpha. auto.
Qed.

(** X16: when a run finishes, the material constant and the centroid were
    computed, the displacement arrays and the line-of-sight array have the
    shape of the grid, and at every grid cell the arrays hold the projected
    solver output and the line-of-sight array its dot product with the
    pointing vector. *)
Theorem run_all_finished (c : Centroid) (s : store) (los : np.ndarray2) :
  the_run = Finished c s los ->
  exists alpha,
    okada_alpha lmda mu = inr alpha /\
    centroid p = inr c /\
    store_shape g s /\
    shape (n0 g) (n1 g) los /\
    forall i j, (i < n0 g)%nat -> (j < n1 g)%nat ->
      field_at s i j = Some (stored_ij grad dc3dwrapper alpha p c g i j) /\
      np.getitem2 los i j
      = Some (dot3 (stored_ij grad dc3dwrapper alpha p c g i j)
                   (p_vec theta phi)).
Proof.
  intros Hrun.
  destruct (run_all_finished_inv c s los Hrun)
    as (alpha & Halpha & Hc & Hcell & ->).
  destruct (cell16_result_unit _ _ _ _ _ _ _ Hcell) as [Hsh Hat].
  exists alpha. split; [exact Halpha |]. split; [exact Hc |].
  split; [exact Hsh |]. split.
  - destruct Hsh as (Hx & Hy & Hz). unfold ULOS, ULOS_X, ULOS_Y, ULOS_Z.
    apply shape_add; [apply shape_add |]; apply shape_multiply; assumption.
  - intros i j Hi Hj. split; [apply Hat; assumption |].
    specialize (Hat i j Hi Hj).
    destruct (stored_ij grad dc3dwrapper alpha p c g i j) as [[ux uy] uz].
    rewrite (ULOS_at s (p_vec theta phi) i j ux uy uz Hat). reflexivity.
Qed.

(** X17: for a fault with zero slip and a solver that returns no
    displacement for no slip, a run that finishes has a line-of-sight array
    that is zero at every grid cell. *)
Theorem zero_slip_zero_los (c : Centroid) (s : store) (los : np.ndarray2)
    (i j : nat) :
  slip p = 0 ->
  (forall a xo depth dip_ al aw,
      snd (fst (dc3dwrapper a xo depth dip_ al aw (0, 0, 0))) = (0, 0, 0)) ->
  the_run = Finished c s los ->
  (i < n0 g)%nat -> (j < n1 g)%nat ->
  np.getitem2 los i j = Some 0.
Proof.
  intros Hslip Hzero Hrun Hi Hj.
  destruct (run_all_finished_inv c s los Hrun)
    as (alpha & Halpha & Hc & Hcell & ->).
  destruct (cell16_result_unit _ _ _ _ _ _ _ Hcell) as [_ Hat].
  specialize (Hat i j Hi Hj).
  rewrite (stored_zero_slip dc3dwrapper alpha p c g i j Hslip Hzero) in Hat.
  rewrite (ULOS_at s (p_vec theta phi) i j 0 0 0 Hat). f_equal. lra.
Qed.

End NotebookRuns.

(** The notebook run on a fault of acute dip with the solver that returns
    the slip vector. *)
Lemma run_all_echo (p : FaultParameters) (g : Grid) (theta phi : R) :
  0 < dip p < 90 ->
  run_all unit echo_solver reference_lmda reference_mu p g theta phi
  = Finished (centroid_value p)
      (fst (cell16 unit echo_solver (2 / 3) p (centroid_value p) g))
      (ULOS (fst (cell16 unit echo_solver (2 / 3) p (centroid_value p) g))
            (p_vec theta phi)).
Proof.
  intros Hdip. unfold run_all. rewrite okada_alpha_reference.
  destruct (math_tan_acute (dip p) Hdip) as [Htan Hpos].
  rewrite (centroid_defined p) by (rewrite Htan; lra).
  destruct (cell16_completes echo_solver (2 / 3) p (centroid_value p) g
              (fun i j _ _ => eq_refl)) as (s' & Hrun & _).
  rewrite Hrun. reflexivity.
Qed.

(** X16 on the reference run with the solver that returns the slip
    vector. *)
Lemma run_all_finished_witness :
  exists alpha,
    okada_alpha reference_lmda reference_mu = inr alpha /\
    centroid reference_fault = inr (centroid_value reference_fault) /\
    store_shape reference_grid
      (fst (cell16 unit echo_solver (2 / 3) reference_fault
              (centroid_value reference_fault) reference_grid)) /\
    shape (n0 reference_grid) (n1 reference_grid)
      (ULOS (fst (cell16 unit echo_solver (2 / 3) reference_fault
                    (centroid_value reference_fault) reference_grid))
            (p_vec 39 (-260))) /\
    forall i j, (i < n0 reference_grid)%nat -> (j < n1 reference_grid)%nat ->
      field_at (fst (cell16 unit echo_solver (2 / 3) reference_fault
                       (centroid_value reference_fault) reference_grid)) i j
      = Some (stored_ij unit echo_solver alpha reference_fault
                (centroid_value reference_fault) reference_grid i j) /\
      np.getitem2
        (ULOS (fst (cell16 unit echo_solver (2 / 3) reference_fault
                      (centroid_value reference_fault) reference_grid))
              (p_vec 39 (-260))) i j
      = Some (dot3 (stored_ij unit echo_solver alpha reference_fault
                      (centroid_value reference_fault) reference_grid i j)
                   (p_vec 39 (-260))).
Proof.
  apply (run_all_finished echo_solver reference_lmda reference_mu
           reference_fault reference_grid 39 (-260)).
  apply run_all_echo. simpl. lra.
Defined.

(** X17 on the reference fault with its slip set to 0, at the last cell of
    the reference grid. *)
Lemma zero_slip_zero_los_witness :
  np.getitem2
    (ULOS (fst (cell16 unit echo_solver (2 / 3) (with_slip 0 reference_fault)
                  (centroid_value (with_slip 0 reference_fault))
                  reference_grid))
          (p_vec 39 (-260))) 100 100
  = Some 0.
Proof.
  apply (zero_slip_zero_los echo_solver reference_lmda reference_mu
           (with_slip 0 reference_fault) reference_grid 39 (-260)
           (centroid_value (with_slip 0 reference_fault))
           (fst (cell16 unit echo_solver (2 / 3) (with_slip 0 reference_fault)
                   (centroid_value (with_slip 0 reference_fault))
                   reference_grid))).
  - reflexivity.
  - intros a xo depth dip_ al aw. reflexivity.
  - apply run_all_echo. simpl. lra.
  - simpl. lia.
  - simpl. lia.
Defined.

(** ** Line-of-sight values and the displacement *)

(** X18: a line-of-sight value is never larger in magnitude than the
    displacement it is taken from: its square is at most the squared length
    of the displacement. *)
Theorem los_bounded_by_displacement (s : store) (theta phi : R) (i j : nat)
    (ux uy uz v : R) :
  field_at s i j = Some (ux, uy, uz) ->
  np.getitem2 (ULOS s (p_vec theta phi)) i j = Some v ->
  v ^ 2 <= ux ^ 2 + uy ^ 2 + uz ^ 2.
Proof.
  intros Hat Hv.
  pose proof (ULOS_at s (p_vec theta phi) i j ux uy uz Hat) as Hu.
  pose proof (p_vec_norm theta phi) as Hn.
  set (a := px (p_vec theta phi)) in *.
  set (b := py (p_vec theta phi)) in *.
  set (d := pz (p_vec theta phi)) in *.
  assert (Hveq : v = ux * a + uy * b + uz * d) by congruence.
  subst v.
  scale_unit Hn (ux * ux + uy * uy + uz * uz).
  pose proof (pow2_ge_0 (ux * b - uy * a)) as H1.
  pose proof (pow2_ge_0 (ux * d - uz * a)) as H2.
  pose proof (pow2_ge_0 (uy * d - uz * b)) as H3.
  nra.
Qed.

(** X18 on a field of one cell. *)
Lemma los_bounded_by_displacement_witness :
  (3 * px (p_vec 39 (-260)) + 4 * py (p_vec 39 (-260))
   + 12 * pz (p_vec 39 (-260))) ^ 2 <= 3 ^ 2 + 4 ^ 2 + 12 ^ 2.
Proof.
  apply (los_bounded_by_displacement (Store [[3]] [[4]] [[12]]) 39 (-260)
           0 0 3 4 12).
  - reflexivity.
  - reflexivity.
Defined.

(** X19: for an incidence from 0 up to, but not, 90 degrees, an upward
    displacement with no horizontal part gives a negative line-of-sight
    value (the ground comes closer to the satellite); looking straight
    down, at incidence 0, the line-of-sight value is the vertical
    displacement with its sign changed, whatever the horizontal part. *)
Theorem uplift_is_range_decrease (s : store) (theta phi : R) (i j : nat)
    (ux uy uz : R) :
  field_at s i j = Some (ux, uy, uz) ->
  (0 <= theta < 90 -> ux = 0 -> uy = 0 -> 0 < uz ->
   exists v, np.getitem2 (ULOS s (p_vec theta phi)) i j = Some v /\ v < 0) /\
  np.getitem2 (ULOS s (p_vec 0 phi)) i j = Some (- uz).
Proof.
  intros Hat. split.
  - intros Hth -> -> Huz.
    rewrite (ULOS_at s (p_vec theta phi) i j 0 0 uz Hat).
    eexists. split; [reflexivity |].
    unfold p_vec, px, py, pz. simpl.
    assert (Hcos : 0 < cos (math.radians theta)).
    { apply cos_gt_0; unfold math.radians; pose proof PI_RGT_0; nra. }
    nra.
  - rewrite (ULOS_at s (p_vec 0 phi) i j ux uy uz Hat).
    unfold p_vec, px, py, pz. simpl.
    rewrite radians_0, sin_0, cos_0. f_equal. lra.
Qed.

(** X19 on a field of one cell, lifted by 2, at the incidence and azimuth
    of cell 18. *)
Lemma uplift_is_range_decrease_witness :
  (exists v, np.getitem2 (ULOS (Store [[0]] [[0]] [[2]]) (p_vec 39 (-260))) 0 0
             = Some v /\ v < 0) /\
  np.getitem2 (ULOS (Store [[0]] [[0]] [[2]]) (p_vec 0 (-260))) 0 0
  = Some (- 2).
Proof.
  destruct (uplift_is_range_decrease (Store [[0]] [[0]] [[2]]) 39 (-260)
              0 0 0 0 2 eq_refl) as [Hneg Hdown].
  split.
  - apply Hneg; try reflexivity; lra.
  - exact Hdown.
Defined.

(** ** The transposed arrays of the plots *)

(** X20: the transpose [a.T] that the plots take of an array of [n0 >= 1]
    rows and [n1] columns has [n1] rows and [n0] columns, and its entry
    [[j, i]] is the entry [[i, j]] of the array. *)
Theorem transpose_entries (a b : nat) (arr : np.ndarray2) :
  shape a b arr -> (0 < a)%nat ->
  shape b a (np.transpose arr) /\
  forall i j, (i < a)%nat -> (j < b)%nat ->
              np.getitem2 (np.transpose arr) j i = np.getitem2 arr i j.
Proof.
  intros Hsh Ha.
  assert (Hcols : np.ncols arr = b).
  { destruct (shape_row a b arr 0 Hsh Ha) as (row & Hrow & Hlen).
    destruct arr as [| r arr']; [discriminate |].
    simpl in Hrow. inversion Hrow; subst. reflexivity. }
  unfold np.transpose. rewrite Hcols. split.
  - split.
    + rewrite length_fmap. apply length_seq.
    + apply Forall_fmap. apply Forall_forall. intros j _. simpl.
      rewrite length_fmap. apply Hsh.
  - intros i j Hi Hj.
    destruct (shape_row a b arr i Hsh Hi) as (row & Hrow & Hlen).
    destruct (lookup_lt_is_Some_2 row j) as [v Hv]; [lia |].
    unfold np.getitem2.
    rewrite list_lookup_fmap, lookup_seq_lt by exact Hj. simpl.
    rewrite list_lookup_fmap, Hrow. simpl. rewrite Hv. reflexivity.
Qed.

(** X20 on an array of two rows and three columns. *)
Lemma transpose_entries_witness :
  shape 3 2 (np.transpose [[1; 2; 3]; [4; 5; 6]]) /\
  forall i j, (i < 2)%nat -> (j < 3)%nat ->
              np.getitem2 (np.transpose [[1; 2; 3]; [4; 5; 6]]) j i
              = np.getitem2 [[1; 2; 3]; [4; 5; 6]] i j.
Proof.
  apply (transpose_entries 2 3 [[1; 2; 3]; [4; 5; 6]]).
  - split; [reflexivity |]. repeat constructor.
  - lia.
Defined.

(** X11 on the grid of two cells, with the solver that fails at the second
    point. *)
Lemma cell16_stops_in_row_major_order_witness :
  snd (cell16 unit near_solver (2 / 3) reference_fault origin_centroid
         two_cell_grid) = inl AssertionError /\
  forall i j, (i < 1)%nat -> (j < 2)%nat ->
    field_at (fst (cell16 unit near_solver (2 / 3) reference_fault
                     origin_centroid two_cell_grid)) i j
    = if decide (i * 2 + j < 0 * 2 + 1)%nat
      then Some (stored_ij unit near_solver (2 / 3) reference_fault
                   origin_centroid two_cell_grid i j)
      else Some (0, 0, 0).
Proof.
  apply (cell16_stops_in_row_major_order near_solver (2 / 3) reference_fault
           origin_centroid two_cell_grid 0 1).
  - simpl. lia.
  - simpl. lia.
  - unfold succeeds. simpl. rewrite near_solver_second. reflexivity.
  - intros i j Hi Hj Hlt. simpl in Hi, Hj, Hlt.
    assert (i = 0%nat) as -> by lia. assert (j = 0%nat) as -> by lia.
    unfold succeeds. simpl. rewrite near_solver_first. reflexivity.
Defined.

(** X12 on the reference grid, with the solver that fails at every point. *)
Lemma cell16_outcomes_witness :
  snd (cell16 unit refusing_solver (2 / 3) reference_fault origin_centroid
         reference_grid) = inl AssertionError.
Proof.
  destruct (cell16_outcomes refusing_solver (2 / 3) reference_fault
              origin_centroid reference_grid) as (_ & _ & Hfail & _).
  apply Hfail. exists 0%nat, 0%nat. simpl. repeat split; lia.
Defined.
